(** * build/create-mac-icon.py: badge composition and multi-resolution export

    The script draws a circular badge with the letter C on a 1024x1024 RGBA
    canvas (create_icon) and writes it, resized to seven fixed resolutions
    and once at full size, as PNG files next to the script
    (save_icon_sizes).

    The embedding follows the script line by line:
    - Python objects live in an explicit heap; a variable holds a
      reference, drawing updates the referenced image in place, and a
      resize allocates a new image.
    - The file system is a finite map from paths to files, standard output
      a list of lines.
    - Every command ends with a value or with an uncaught exception, and in
      both cases leaves a state behind.
    - Floats are binary64 (the primitive floats of Rocq), so [int(size *
      0.45)] is computed as Python computes it.
    - [os.path] is the POSIX one.
    - Pillow is not part of the script.  What its calls do to the mode and
      the size of an image, where they allocate and what they write follows
      its documentation; the pixels they produce (ellipse rasterisation,
      glyph rendering, Lanczos resampling) and the fonts of the machine are
      fields of an interface, and every theorem holds for all its
      implementations.  A file on disk is given by its format and the image
      it decodes to.
    - Opening a file for writing is permitted in a directory where the
      process may create and overwrite files; elsewhere an existing file
      needs write permission on the file, and a missing one permission to
      create it.  This is the only way a save of the script can fail. *)

From Stdlib Require Import ZArith Floats Ascii.
From stdpp Require Import gmap strings list pretty.

#[local] Set Warnings "-inexact-float".
#[local] Open Scope Z_scope.

(* ===================================================================== *)
(** * Python built-ins used by the script *)
(* ===================================================================== *)

Module Py.

(** [float(n)] for a machine-sized non-negative int. *)
Definition float_of_int (n : Z) : float := PrimFloat.of_uint63 (Uint63.of_Z n).

(** [int(x)] truncates a finite float toward zero; on an infinity or a
    NaN Python raises (OverflowError, ValueError): [None]. *)
Definition int_of_float (x : float) : option Z :=
  match Prim2SF x with
  | S754_zero _ => Some 0
  | S754_finite sgn m e =>
      let a := if 0 <=? e then Z.shiftl (Z.pos m) e else Z.shiftr (Z.pos m) (- e) in
      Some (if sgn then - a else a)
  | S754_infinity _ | S754_nan => None
  end.

(** [len(s)] *)
Definition len (s : string) : Z := Z.of_nat (String.length s).

(** [s.rfind(c)] for a one-character [c]: the index of its last
    occurrence, or -1. *)
Fixpoint rfind (s : string) (c : ascii) : Z :=
  match s with
  | EmptyString => -1
  | String a s' =>
      let r := rfind s' c in
      if 0 <=? r then r + 1 else if Ascii.eqb a c then 0 else -1
  end.

Fixpoint str_take (n : nat) (s : string) : string :=
  match n, s with
  | S n', String a s' => String a (str_take n' s')
  | _, _ => EmptyString
  end.

Fixpoint str_drop (n : nat) (s : string) : string :=
  match n, s with
  | S n', String _ s' => str_drop n' s'
  | _, _ => s
  end.

(** The slices [s[:i]], [s[i:]] and [s[i:j]] for indices [0 <= i <= j]
    (the only ones the path functions below form). *)
Definition slice_to (s : string) (i : Z) : string := str_take (Z.to_nat i) s.
Definition slice_from (s : string) (i : Z) : string := str_drop (Z.to_nat i) s.
Definition slice (s : string) (i j : Z) : string := slice_to (slice_from s i) (j - i).

(** [s.startswith(c)], [s.endswith(c)] for a one-character [c]. *)
Definition startswith (s : string) (c : ascii) : bool :=
  match s with
  | String a _ => Ascii.eqb a c
  | EmptyString => false
  end.

Fixpoint endswith (s : string) (c : ascii) : bool :=
  match s with
  | EmptyString => false
  | String a EmptyString => Ascii.eqb a c
  | String _ s' => endswith s' c
  end.

(** [s.rstrip(c)]: [s] without its trailing run of [c]. *)
Fixpoint rstrip (s : string) (c : ascii) : string :=
  match s with
  | EmptyString => EmptyString
  | String a s' =>
      match rstrip s' c with
      | EmptyString => if Ascii.eqb a c then EmptyString else String a EmptyString
      | r => String a r
      end
  end.

(** [c * n] *)
Fixpoint str_repeat (c : ascii) (n : nat) : string :=
  match n with
  | O => EmptyString
  | S n' => String c (str_repeat c n')
  end.

(** [not s] on a string: true exactly for the empty one. *)
Definition is_empty (s : string) : bool :=
  match s with EmptyString => true | _ => false end.

Definition lower_char (a : ascii) : ascii :=
  let n := N_of_ascii a in
  if ((65 <=? n) && (n <=? 90))%N then ascii_of_N (n + 32) else a.

(** [s.lower()] on ASCII text. *)
Fixpoint lower (s : string) : string :=
  match s with
  | EmptyString => EmptyString
  | String a s' => String (lower_char a) (lower s')
  end.

(** [all(ch == c for ch in s)] *)
Fixpoint all_eq (s : string) (c : ascii) : bool :=
  match s with
  | EmptyString => true
  | String a s' => Ascii.eqb a c && all_eq s' c
  end.

(** [f"{n}"] for an int: its decimal digits, with a leading minus sign
    for a negative one. *)
Definition str_of_int (n : Z) : string := pretty n.

End Py.

(* ===================================================================== *)
(** * os.path on a POSIX host (posixpath) *)
(* ===================================================================== *)

Module os_path.
Import Py.

Definition sep : ascii := "/"%char.
Definition extsep : ascii := "."%char.

(** [os.path.join(a, b)] *)
Definition join (a b : string) : string :=
  if startswith b sep then b
  else if is_empty a || endswith a sep then a +:+ b
  else a +:+ String sep b.

(** [os.path.dirname(p)] *)
Definition dirname (p : string) : string :=
  let i := rfind p sep + 1 in
  let head := slice_to p i in
  if negb (is_empty head) && negb (String.eqb head (str_repeat sep (String.length head)))
  then rstrip head sep
  else head.

(** [os.path.basename(p)] *)
Definition basename (p : string) : string :=
  let i := rfind p sep + 1 in
  slice_from p i.

(** [os.path.splitext(p)].  The library scans the file name from its
    first character up to the last dot and splits at that dot as soon as
    it meets a character that is not a dot; a name made of leading dots
    only has no extension. *)
Definition splitext (p : string) : string * string :=
  let sepIndex := rfind p sep in
  let dotIndex := rfind p extsep in
  if sepIndex <? dotIndex then
    if all_eq (slice p (sepIndex + 1) dotIndex) extsep
    then (p, EmptyString)
    else (slice_to p dotIndex, slice_from p dotIndex)
  else (p, EmptyString).

End os_path.

(* ===================================================================== *)
(** * Program states, exceptions and the command monad *)
(* ===================================================================== *)

(** A reference to a Python object: its index in the heap. *)
Definition loc := nat.

Inductive exn : Type :=
  | OSError (msg : string)
  | PermissionError (path : string)
  | ValueError (msg : string)
  | OverflowError
  | DanglingReference (l : loc).

(** Outcome of a command: a value or an uncaught exception, and in both
    cases the state the command leaves behind. *)
Inductive result (S A : Type) : Type :=
  | Ok (a : A) (s : S)
  | Raise (e : exn) (s : S).
Arguments Ok {S A} a s.
Arguments Raise {S A} e s.

Definition final_state {S A} (r : result S A) : S :=
  match r with Ok _ s => s | Raise _ s => s end.

Module PIL.

(** Image modes (those a PNG file can store), resampling filters and
    file formats. *)
Inductive Mode := Bilevel | L | LA | P | RGB | RGBA.
Inductive Resampling := NEAREST | BOX | BILINEAR | HAMMING | BICUBIC | LANCZOS.
Inductive Format := PNG | JPEG.

Definition Color : Type := Z * Z * Z * Z.
Definition Box : Type := Z * Z * Z * Z.

(** An image object: its [mode], its [size] and its pixel storage. *)
Record Image (R : Type) : Type := mkImage {
  im_mode : Mode;
  im_size : Z * Z;
  im_pixels : R
}.
Arguments mkImage {R} _ _ _.
Arguments im_mode {R} _.
Arguments im_size {R} _.
Arguments im_pixels {R} _.

Definition width {R} (im : Image R) : Z := fst (im_size im).
Definition height {R} (im : Image R) : Z := snd (im_size im).

(** What the library computes below the level of the script: the pixel
    storage each operation produces, and the fonts of the machine. *)
Class Pillow : Type := {
  Raster : Type;
  Font : Type;
  (** pixels of [Image.new(mode, size, color)] *)
  raster_new : Mode -> Z * Z -> Color -> Raster;
  (** pixels of the image after [draw.ellipse(box, fill=color)] *)
  raster_ellipse : Image Raster -> Box -> Color -> Raster;
  (** pixels of the image after [draw.text(xy, text, fill=color, font=font)] *)
  raster_text : Image Raster -> Z * Z -> string -> Color -> Font -> Raster;
  (** pixels of [im.resize(size, resample)] *)
  raster_resize : Image Raster -> Z * Z -> Resampling -> Raster;
  (** [ImageFont.truetype(name, size)]: the font, or the exception it
      raises *)
  font_truetype : string -> Z -> exn + Font;
  (** [ImageFont.load_default()] *)
  font_default : Font;
  (** [font.getbbox(text)]: the glyph box of [text] drawn at the origin *)
  font_getbbox : Font -> string -> Box
}.

(** The registry [Image.EXTENSION], restricted to the two formats above. *)
Definition EXTENSION (ext : string) : option Format :=
  if String.eqb ext ".png" then Some PNG
  else if String.eqb ext ".jpg" then Some JPEG
  else if String.eqb ext ".jpeg" then Some JPEG
  else None.

(** The modes each encoder writes; the others make [save] raise
    "cannot write mode ... as ...". *)
Definition writes_mode (f : Format) (m : Mode) : bool :=
  match f, m with
  | PNG, _ => true
  | JPEG, (Bilevel | L | RGB) => true
  | JPEG, _ => false
  end.

(** The modes with an alpha channel. *)
Definition has_alpha (m : Mode) : bool :=
  match m with LA | RGBA => true | _ => false end.

(** An image file on disk, by what decoding it gives back. *)
Record File (R : Type) : Type := mkFile {
  file_format : Format;
  file_image : Image R
}.
Arguments mkFile {R} _ _.
Arguments file_format {R} _.
Arguments file_image {R} _.

End PIL.
Export PIL.

(** The machine the script runs on. *)
Record Host : Type := {
  (** [os.path.abspath(__file__)] *)
  script_path : string;
  (** the directories in which the process may create and overwrite files *)
  dir_writable : string -> bool;
  (** elsewhere permissions are decided entry by entry: the directories in
      which the process may create a file, *)
  dir_creatable : string -> bool;
  (** and the paths at which it may write a file, one that is there or one
      it creates (a file the process has created is one it may write
      again) *)
  file_writable : string -> bool
}.

Record State `{Pillow} : Type := mkState {
  heap : list (Image Raster);
  fs : gmap string (File Raster);
  stdout : list string
}.

Arguments mkState {_} _ _ _.

Definition M `{Pillow} (A : Type) : Type := State -> result State A.

Section Monad.
Context {pil : Pillow}.

Definition ret {A} (a : A) : M A := fun s => Ok a s.

Definition bind {A B} (c : M A) (k : A -> M B) : M B :=
  fun s => match c s with
           | Ok a s' => k a s'
           | Raise e s' => Raise e s'
           end.

Definition raise {A} (e : exn) : M A := fun s => Raise e s.

(** [try: body / except: handler] with a bare [except], which catches
    every exception. *)
Definition try_except {A} (body handler : M A) : M A :=
  fun s => match body s with
           | Ok a s' => Ok a s'
           | Raise _ s' => handler s'
           end.

(** Object creation, read and in-place update. *)
Definition alloc (im : Image Raster) : M loc :=
  fun s => Ok (length (heap s))
              (mkState (heap s ++ [im]) (fs s) (stdout s)).

Definition deref (l : loc) : M (Image Raster) :=
  fun s => match heap s !! l with
           | Some im => Ok im s
           | None => Raise (DanglingReference l) s
           end.

Definition store (l : loc) (im : Image Raster) : M unit :=
  fun s => Ok tt (mkState (<[l := im]> (heap s)) (fs s) (stdout s)).

Definition write_file (path : string) (f : File Raster) : M unit :=
  fun s => Ok tt (mkState (heap s) (<[path := f]> (fs s)) (stdout s)).

(** [print(line)] *)
Definition print (line : string) : M unit :=
  fun s => Ok tt (mkState (heap s) (fs s) (stdout s ++ [line])).

End Monad.

Notation "x <- c1 ;; c2" := (bind c1 (fun x => c2))
  (at level 100, c1 at next level, right associativity).
Notation "c1 ;;; c2" := (bind c1 (fun _ => c2))
  (at level 100, right associativity).

(** [for x in xs: body x] *)
Fixpoint for_in `{Pillow} {A} (xs : list A) (body : A -> M unit) : M unit :=
  match xs with
  | [] => ret tt
  | x :: xs' => body x ;;; for_in xs' body
  end.

(* ===================================================================== *)
(** * The Pillow calls of the script *)
(* ===================================================================== *)

Section Library.
Context {pil : Pillow} (host : Host).

(** [int(x)] on a float *)
Definition int (x : float) : M Z :=
  match Py.int_of_float x with
  | Some n => ret n
  | None => raise OverflowError
  end.

(** [Image.new(mode, size, color)] *)
Definition Image_new (mode : Mode) (size : Z * Z) (color : Color) : M loc :=
  alloc (mkImage mode size (raster_new mode size color)).

(** [ImageDraw.Draw(im)]: the drawing object keeps a reference to the
    image and draws into it in place. *)
Record ImageDraw : Type := { draw_image : loc }.

Definition ImageDraw_Draw (im : loc) : M ImageDraw :=
  ret {| draw_image := im |}.

(** [draw.ellipse(box, fill=color)] *)
Definition ellipse (draw : ImageDraw) (box : Box) (fill : Color) : M unit :=
  im <- deref (draw_image draw) ;;
  store (draw_image draw)
        (mkImage (im_mode im) (im_size im) (raster_ellipse im box fill)).

(** [ImageFont.truetype(name, size)] *)
Definition ImageFont_truetype (name : string) (size : Z) : M Font :=
  match font_truetype name size with
  | inr font => ret font
  | inl e => raise e
  end.

(** [ImageFont.load_default()] *)
Definition ImageFont_load_default : M Font := ret font_default.

(** [draw.textbbox(xy, text, font=font)]: the box of the font, moved
    to [xy]. *)
Definition textbbox (draw : ImageDraw) (xy : Z * Z) (text : string) (font : Font)
  : M Box :=
  let '(x, y) := xy in
  let '(b0, b1, b2, b3) := font_getbbox font text in
  ret (b0 + x, b1 + y, b2 + x, b3 + y).

(** [draw.text(xy, text, fill=color, font=font)] *)
Definition text (draw : ImageDraw) (xy : Z * Z) (txt : string) (fill : Color)
    (font : Font) : M unit :=
  im <- deref (draw_image draw) ;;
  store (draw_image draw)
        (mkImage (im_mode im) (im_size im) (raster_text im xy txt fill font)).

(** [im.resize(size, resample)]: a new image of the requested size and
    of the mode of [im]; [im] itself is only read.  A width or height that
    is not positive is refused (limits of memory are not modelled). *)
Definition resize (self : loc) (size : Z * Z) (resample : Resampling) : M loc :=
  im <- deref self ;;
  if (0 <? fst size) && (0 <? snd size)
  then alloc (mkImage (im_mode im) size (raster_resize im size resample))
  else raise (ValueError "height and width must be > 0").

(** Whether [open(path, "wb")] is permitted, given the files that exist:
    always in a directory where the process may create and overwrite
    files; otherwise an existing file needs write permission on the file,
    and a missing one also permission to create it in its directory. *)
Definition may_open (m : gmap string (File Raster)) (path : string) : bool :=
  dir_writable host (os_path.dirname path)
  || (file_writable host path
      && match m !! path with
         | Some _ => true
         | None => dir_creatable host (os_path.dirname path)
         end).

(** [open(path, "wb")] as far as the script depends on it. *)
Definition open_wb (path : string) : M unit :=
  fun s => if may_open (fs s) path then Ok tt s
           else Raise (PermissionError path) s.

(** [im.save(path)]: the format comes from the extension of [path]. *)
Definition save (self : loc) (path : string) : M unit :=
  im <- deref self ;;
  let ext := Py.lower (snd (os_path.splitext path)) in
  match EXTENSION ext with
  | None => raise (ValueError "unknown file extension")
  | Some format =>
      open_wb path ;;;
      if writes_mode format (im_mode im)
      then write_file path (mkFile format im)
      else raise (OSError "cannot write mode")
  end.

End Library.

(* ===================================================================== *)
(** * The script *)
(* ===================================================================== *)

Section Script.
Context {pil : Pillow} (host : Host).

Definition create_icon : M loc :=
  (* Create a 1024x1024 base image *)
  let size := 1024 in
  img <- Image_new RGBA (size, size) (0, 0, 0, 0) ;;
  draw <- ImageDraw_Draw img ;;
  (* Background circle *)
  let center := size `div` 2 in
  radius <- int (Py.float_of_int size * 0.45) ;;
  ellipse draw (center - radius, center - radius, center + radius, center + radius)
          (41, 128, 185, 255) ;;;
  (* Inner circle for contrast *)
  inner_radius <- int (Py.float_of_int radius * 0.8) ;;
  ellipse draw (center - inner_radius, center - inner_radius,
                center + inner_radius, center + inner_radius)
          (52, 152, 219, 255) ;;;
  (* Add "C" for CoreLink *)
  font <- try_except
            (n <- int (Py.float_of_int size * 0.4) ;;
             ImageFont_truetype "arial.ttf" n)
            ImageFont_load_default ;;
  (* Draw the "C" letter *)
  let text_ := "C" in
  bbox <- textbbox draw (0, 0) text_ font ;;
  let '(bbox0, bbox1, bbox2, bbox3) := bbox in
  let text_width := bbox2 - bbox0 in
  let text_height := bbox3 - bbox1 in
  let text_x := center - text_width `div` 2 in
  let text_y := center - text_height `div` 2 in
  text draw (text_x, text_y) text_ (255, 255, 255, 255) font ;;;
  ret img.

Definition sizes : list Z := [16; 32; 64; 128; 256; 512; 1024].

(** [os.path.dirname(os.path.abspath(__file__))] *)
Definition build_dir : string := os_path.dirname (script_path host).

(** [f"icon_{size}x{size}.png"] *)
Definition icon_filename (size : Z) : string :=
  "icon_" +:+ Py.str_of_int size +:+ "x" +:+ Py.str_of_int size +:+ ".png".

Definition save_icon_sizes (base_img : loc) : M unit :=
  for_in sizes (fun size =>
    resized <- resize base_img (size, size) LANCZOS ;;
    let filename := icon_filename size in
    save host resized (os_path.join build_dir filename) ;;;
    print ("Created " +:+ filename)) ;;;
  (* Save the main icon as well *)
  save host base_img (os_path.join build_dir "icon.png") ;;;
  print "Created icon.png".

Definition main : M unit :=
  print "Creating CoreLink macOS icon..." ;;;
  icon <- create_icon ;;
  save_icon_sizes icon ;;;
  print (String "010"%char
    "Icon files created! Use an online converter or macOS to create the .icns file:") ;;;
  print "1. Go to https://convertio.co/png-icns/" ;;;
  print "2. Upload icon.png" ;;;
  print "3. Download the .icns file" ;;;
  print "4. Place it in the build directory as 'icon.icns'".

End Script.

(* ===================================================================== *)
(** * Notions used in the statements *)
(* ===================================================================== *)

(** A file name proper: it contains no separator. *)
Definition plain_name (name : string) : Prop := Py.rfind name os_path.sep = -1.

(** The shape of every directory name that [dirname] returns: it
    consists of separators only (the root), or it does not end in one. *)
Definition normal_dir (d : string) : Prop :=
  Py.rstrip d os_path.sep = EmptyString \/ Py.endswith d os_path.sep = false.

(** A name the export can use for a PNG file: no separator in it, and the
    extension .png. *)
Definition png_name (name : string) : Prop :=
  plain_name name
  /\ 0 <= Py.rfind name os_path.extsep
  /\ Py.lower (snd (os_path.splitext name)) = ".png".

(** Paths the files are written under. *)
Definition paths_of (dir : string) (names : list string) : list string :=
  map (os_path.join dir) names.

(** The eight names, as the loop and the final save produce them. *)
Definition icon_names : list string := map icon_filename sizes ++ ["icon.png"].

(** What the script prints after its first line, when all goes well. *)
Definition progress_lines : list string :=
  map (fun size => "Created " +:+ icon_filename size) sizes ++ ["Created icon.png"].

Definition closing_lines : list string :=
  [String "010"%char
     "Icon files created! Use an online converter or macOS to create the .icns file:";
   "1. Go to https://convertio.co/png-icns/";
   "2. Upload icon.png";
   "3. Download the .icns file";
   "4. Place it in the build directory as 'icon.icns'"].

Definition succeeded {S A} (r : result S A) : bool :=
  match r with Ok _ _ => true | Raise _ _ => false end.

(** The box of the circle with the given centre (on the diagonal) and
    radius, as the script passes it to [draw.ellipse]. *)
Definition circle_box (center radius : Z) : Box :=
  (center - radius, center - radius, center + radius, center + radius).

(** Distance of a box from the left and top edges of the canvas. *)
Definition box_margin (b : Box) : Z := let '(x0, _, _, _) := b in x0.

(** Twice the centre of a box (twice, to stay in whole pixels). *)
Definition box_centre2 (b : Box) : Z * Z :=
  let '(x0, y0, x1, y1) := b in (x0 + x1, y0 + y1).

Section Notions.
Context {pil : Pillow} (host : Host).
Implicit Types (im : Image Raster) (m : gmap string (File Raster)).

(** The stages of the canvas, and the finished badge for a given font. *)
Definition canvas : Image Raster :=
  mkImage RGBA (1024, 1024) (raster_new RGBA (1024, 1024) (0, 0, 0, 0)).

Definition outer_circle : Image Raster :=
  mkImage RGBA (1024, 1024)
          (raster_ellipse canvas (circle_box 512 460) (41, 128, 185, 255)).

Definition inner_circle : Image Raster :=
  mkImage RGBA (1024, 1024)
          (raster_ellipse outer_circle (circle_box 512 368) (52, 152, 219, 255)).

(** Where the script puts the drawing origin of the glyph. *)
Definition glyph_anchor (font : Font) : Z * Z :=
  let '(b0, b1, b2, b3) := font_getbbox font "C" in
  (512 - (b2 - b0) `div` 2, 512 - (b3 - b1) `div` 2).

Definition badge (font : Font) : Image Raster :=
  mkImage RGBA (1024, 1024)
          (raster_text inner_circle (glyph_anchor font) "C" (255, 255, 255, 255) font).

(** The box the glyph occupies once drawn: the box of the font, moved to
    the anchor the script drew it at ([draw.textbbox] at that anchor). *)
Definition drawn_glyph_box (font : Font) : Box :=
  let '(x, y) := glyph_anchor font in
  let '(b0, b1, b2, b3) := font_getbbox font "C" in
  (b0 + x, b1 + y, b2 + x, b3 + y).

(** The font the script ends up with. *)
Definition selected_font : Font :=
  match font_truetype "arial.ttf" 409 with
  | inr font => font
  | inl _ => font_default
  end.

(** The image a resize allocates. *)
Definition resized im (size : Z * Z) (resample : Resampling) : Image Raster :=
  mkImage (im_mode im) size (raster_resize im size resample).

(** The file the export writes for one size, and all the files it writes
    for a base image, by name and in the order of writing. *)
Definition sized_file im (size : Z) : string * File Raster :=
  (icon_filename size, mkFile PNG (resized im (size, size) LANCZOS)).

Definition exported_files im : list (string * File Raster) :=
  map (sized_file im) sizes ++ [("icon.png", mkFile PNG im)].

Definition write_files (dir : string) (files : list (string * File Raster)) m
  : gmap string (File Raster) :=
  foldl (fun m' nf => <[os_path.join dir nf.1 := nf.2]> m') m files.

(** A command that only allocates: whatever its outcome, the objects
    that were on the heap before it are still there, unchanged, after
    it. *)
Definition allocates_only {A} (c : M A) : Prop :=
  forall s, heap s `prefix_of` heap (final_state (c s)).

(** The image a command returned a reference to. *)
Definition returned_image (r : result State loc) : option (Image Raster) :=
  match r with
  | Ok l s' => heap s' !! l
  | Raise _ _ => None
  end.

(** What a run of the script leaves for an observer: the exception, or the
    contents of the eight files. *)
Definition outputs (r : result State unit) : exn + list (option (File Raster)) :=
  match r with
  | Ok _ s' => inr (map (fun name => fs s' !! os_path.join (build_dir host) name) icon_names)
  | Raise e _ => inl e
  end.

(** The files of a list that get written, in order, from the file
    system [m] on: the writing stops at the first path that may not be
    opened, which is returned with the files written before it. *)
Fixpoint write_while (files : list (string * File Raster)) m
  : list (string * File Raster) * option string :=
  match files with
  | [] => ([], None)
  | nf :: rest =>
      let path := os_path.join (build_dir host) nf.1 in
      if may_open host m path
      then let '(written, stopped) := write_while rest (<[path := nf.2]> m) in
           (nf :: written, stopped)
      else ([], Some path)
  end.

(** How a command ends that wrote until it was stopped, or to the end. *)
Definition finish (stopped : option string) (s : State) : result State unit :=
  match stopped with
  | None => Ok tt s
  | Some path => Raise (PermissionError path) s
  end.

(** The line the export prints for a file. *)
Definition created_line (nf : string * File Raster) : string := "Created " +:+ nf.1.

End Notions.

(* ===================================================================== *)
(** * A reference implementation of the interface, to run the script *)
(* ===================================================================== *)

(** Pixel storage as the list of calls that produced it, and a machine
    with either one TrueType font (Arial) or none. *)
Module DisplayList.

Inductive font : Type :=
  | TrueType (name : string) (size : Z)
  | Builtin.

Inductive raster : Type :=
  | New (mode : Mode) (size : Z * Z) (color : Color)
  | Ellipse (r : raster) (box : Box) (color : Color)
  | Text (r : raster) (xy : Z * Z) (txt : string) (color : Color) (f : font)
  | Resize (r : raster) (size : Z * Z) (resample : Resampling).

(** Glyph boxes, in the proportions of a sans-serif capital: a TrueType
    glyph starts below the drawing origin (the gap between the ascender
    line and the top of the letter); the built-in bitmap font has cells of
    6 by 11 pixels at the origin. *)
Definition getbbox (f : font) (txt : string) : Box :=
  let n := Z.of_nat (String.length txt) in
  match f with
  | TrueType _ size => (0, (size * 21) `div` 100,
                        n * ((size * 651) `div` 1000),
                        (size * 94) `div` 100)
  | Builtin => (0, 0, 6 * n, 11)
  end.

Definition pillow (arial_installed : bool) : Pillow := {|
  Raster := raster;
  Font := font;
  raster_new := New;
  raster_ellipse := fun im => Ellipse (im_pixels im);
  raster_text := fun im => Text (im_pixels im);
  raster_resize := fun im => Resize (im_pixels im);
  font_truetype := fun name size =>
    if arial_installed && String.eqb name "arial.ttf"
    then inr (TrueType name size) else inl (OSError "cannot open resource");
  font_default := Builtin;
  font_getbbox := getbbox
|}.

Definition mac : Host := {|
  script_path := "/Users/dev/corelink/build/create-mac-icon.py";
  dir_writable := fun d => String.eqb d "/Users/dev/corelink/build";
  dir_creatable := fun d => String.eqb d "/Users/dev/corelink/build";
  file_writable := fun _ => true
|}.

(** The same checkout, mounted read-only. *)
Definition readonly_mac : Host := {|
  script_path := "/Users/dev/corelink/build/create-mac-icon.py";
  dir_writable := fun _ => false;
  dir_creatable := fun _ => false;
  file_writable := fun _ => false
|}.

(** The same checkout with a script directory that takes no new
    entries, while the files in it can be rewritten. *)
Definition closed_dir_mac : Host := {|
  script_path := "/Users/dev/corelink/build/create-mac-icon.py";
  dir_writable := fun _ => false;
  dir_creatable := fun _ => false;
  file_writable := fun _ => true
|}.

(** The same checkout with an icon_64x64.png that may not be written. *)
Definition locked_64_mac : Host := {|
  script_path := "/Users/dev/corelink/build/create-mac-icon.py";
  dir_writable := fun _ => false;
  dir_creatable := fun d => String.eqb d "/Users/dev/corelink/build";
  file_writable := fun p => negb (String.eqb p "/Users/dev/corelink/build/icon_64x64.png")
|}.

Definition init (P : Pillow) : @State P := mkState [] ∅ [].

(** The state right after the badge has been composed; the badge is
    object 0. *)
Definition drawn (arial_installed : bool) : @State (pillow arial_installed) :=
  final_state (create_icon (init (pillow arial_installed))).

(** The boxes of the ellipses of a display list, in drawing order. *)
Fixpoint ellipses (r : raster) : list Box :=
  match r with
  | New _ _ _ => []
  | Ellipse r' box _ => ellipses r' ++ [box]
  | Text r' _ _ _ _ => ellipses r'
  | Resize r' _ _ => ellipses r'
  end.

End DisplayList.

(* ===================================================================== *)
(** * Facts about strings and paths *)
(* ===================================================================== *)

Module PyFacts.
Import Py.

Lemma app_cons (a : ascii) (s t : string) :
  String a s +:+ t = String a (s +:+ t).
Proof. reflexivity. Qed.

Lemma app_nil_l (t : string) : EmptyString +:+ t = t.
Proof. reflexivity. Qed.

Lemma rfind_lower_bound (s : string) (c : ascii) : -1 <= rfind s c.
Proof.
  induction s as [|a s IH]; simpl; [lia|].
  destruct (0 <=? rfind s c) eqn:E; [apply Z.leb_le in E; lia|].
  destruct (Ascii.eqb a c); lia.
Qed.

(** The last occurrence in a concatenation is the last one in the right
    part when there is one, and the last one in the left part otherwise. *)
Lemma rfind_app (a b : string) (c : ascii) :
  rfind (a +:+ b) c
  = if 0 <=? rfind b c then len a + rfind b c else rfind a c.
Proof.
  unfold len. induction a as [|x a IH].
  - rewrite app_nil_l. simpl.
    destruct (0 <=? rfind b c) eqn:E; [lia|].
    apply Z.leb_gt in E. pose proof (rfind_lower_bound b c). lia.
  - rewrite app_cons. simpl rfind. rewrite IH. simpl String.length.
    destruct (0 <=? rfind b c) eqn:E.
    + apply Z.leb_le in E.
      replace (0 <=? Z.of_nat (String.length a) + rfind b c) with true
        by (symmetry; apply Z.leb_le; lia).
      lia.
    + reflexivity.
Qed.

Lemma rfind_none_startswith (s : string) (c : ascii) :
  rfind s c = -1 -> startswith s c = false.
Proof.
  destruct s as [|a s]; [reflexivity|]. simpl.
  destruct (0 <=? rfind s c) eqn:E.
  - apply Z.leb_le in E. lia.
  - destruct (Ascii.eqb a c); [lia | reflexivity].
Qed.

Lemma endswith_rfind (s : string) (c : ascii) :
  endswith s c = true -> rfind s c = len s - 1.
Proof.
  unfold len. induction s as [|a s IH]; [discriminate|].
  destruct s as [|b s].
  - simpl. intros ->. reflexivity.
  - intros E. change (endswith (String b s) c = true) in E.
    specialize (IH E). simpl rfind in *. simpl String.length in *.
    rewrite IH.
    replace (0 <=? Z.of_nat (S (String.length s)) - 1) with true
      by (symmetry; apply Z.leb_le; lia).
    lia.
Qed.

Lemma take_app (a b : string) (n : nat) :
  str_take (String.length a + n) (a +:+ b) = a +:+ str_take n b.
Proof.
  induction a as [|x a IH].
  - reflexivity.
  - rewrite !app_cons. simpl. rewrite IH. reflexivity.
Qed.

Lemma drop_app (a b : string) (n : nat) :
  str_drop (String.length a + n) (a +:+ b) = str_drop n b.
Proof.
  induction a as [|x a IH].
  - reflexivity.
  - rewrite !app_cons. simpl. exact IH.
Qed.

Lemma take_0 (s : string) : str_take 0 s = EmptyString.
Proof. destruct s; reflexivity. Qed.

Lemma drop_0 (s : string) : str_drop 0 s = s.
Proof. destruct s; reflexivity. Qed.

Lemma app_nil_r (s : string) : s +:+ EmptyString = s.
Proof. induction s as [|a s IH]; [reflexivity|]. rewrite app_cons, IH. reflexivity. Qed.

Lemma slice_to_0 (s : string) : slice_to s 0 = EmptyString.
Proof. apply take_0. Qed.

Lemma slice_to_1 (c : ascii) (s : string) :
  slice_to (String c s) 1 = String c EmptyString.
Proof. reflexivity. Qed.

Lemma slice_from_0 (s : string) : slice_from s 0 = s.
Proof. apply drop_0. Qed.

Lemma slice_to_app (a b : string) (k : Z) :
  0 <= k -> slice_to (a +:+ b) (len a + k) = a +:+ slice_to b k.
Proof.
  intros Hk. unfold slice_to, len.
  replace (Z.to_nat (Z.of_nat (String.length a) + k))
    with (String.length a + Z.to_nat k)%nat by lia.
  apply take_app.
Qed.

Lemma slice_from_app (a b : string) (k : Z) :
  0 <= k -> slice_from (a +:+ b) (len a + k) = slice_from b k.
Proof.
  intros Hk. unfold slice_from, len.
  replace (Z.to_nat (Z.of_nat (String.length a) + k))
    with (String.length a + Z.to_nat k)%nat by lia.
  apply drop_app.
Qed.

Lemma rstrip_endswith (s : string) (c : ascii) : endswith (rstrip s c) c = false.
Proof.
  induction s as [|a s IH]; [reflexivity|]. simpl.
  destruct (rstrip s c) as [|b r] eqn:E.
  - destruct (Ascii.eqb a c) eqn:Ea; simpl; [reflexivity | exact Ea].
  - exact IH.
Qed.

Lemma rstrip_id (s : string) (c : ascii) : endswith s c = false -> rstrip s c = s.
Proof.
  induction s as [|a s IH]; [reflexivity|].
  destruct s as [|b s].
  - simpl. intros ->. reflexivity.
  - intros E. change (endswith (String b s) c = false) in E.
    specialize (IH E). simpl rstrip in *. rewrite IH. reflexivity.
Qed.

(** [head == sep * len(head)] holds exactly when stripping the
    separator leaves nothing. *)
Lemma all_sep_rstrip (s : string) (c : ascii) :
  String.eqb s (str_repeat c (String.length s)) = is_empty (rstrip s c).
Proof.
  induction s as [|a s IH]; [reflexivity|].
  simpl. rewrite IH.
  destruct (rstrip s c) as [|b r], (Ascii.eqb a c); reflexivity.
Qed.

Lemma rstrip_snoc (s : string) (c : ascii) :
  rstrip (s +:+ String c EmptyString) c = rstrip s c.
Proof.
  induction s as [|a s IH].
  - simpl. rewrite Ascii.eqb_refl. reflexivity.
  - rewrite app_cons. simpl. rewrite IH. reflexivity.
Qed.

Lemma is_empty_true (s : string) : is_empty s = true -> s = EmptyString.
Proof. destruct s; [reflexivity | discriminate]. Qed.

Lemma app_assoc (a b c : string) : (a +:+ b) +:+ c = a +:+ (b +:+ c).
Proof.
  induction a as [|x a IH]; [reflexivity|].
  rewrite !app_cons, IH. reflexivity.
Qed.

End PyFacts.

Module PathFacts.
Import Py PyFacts os_path.

Lemma dirname_normal (p : string) : normal_dir (dirname p).
Proof.
  unfold dirname, normal_dir.
  set (head := slice_to p (rfind p sep + 1)).
  rewrite all_sep_rstrip.
  destruct head as [|a h] eqn:E; [left; reflexivity|].
  destruct (rstrip (String a h) sep) as [|b r] eqn:Er; cbn [is_empty negb andb].
  - left. exact Er.
  - right. rewrite <- Er. apply rstrip_endswith.
Qed.

Lemma join_plain (a name : string) :
  plain_name name ->
  join a name
  = if is_empty a || endswith a sep then a +:+ name else a +:+ String sep name.
Proof.
  intros Hn. unfold join. rewrite (rfind_none_startswith _ _ Hn). reflexivity.
Qed.

Lemma rfind_sep_cons_plain (name : string) :
  plain_name name -> rfind (String sep name) sep = 0.
Proof. unfold plain_name. intros Hn. simpl. rewrite Hn. reflexivity. Qed.

(** What the script relies on: a file named [name] joined to the
    directory of the script lies in that directory. *)
Lemma dirname_join (d name : string) :
  normal_dir d -> plain_name name -> dirname (join d name) = d.
Proof.
  intros Hd Hn. rewrite (join_plain _ _ Hn).
  destruct d as [|a d'] eqn:Ed.
  - (* no directory part *)
    cbn [is_empty orb]. rewrite app_nil_l.
    unfold dirname. rewrite Hn. reflexivity.
  - rewrite <- Ed in *. replace (is_empty d) with false by (rewrite Ed; reflexivity).
    cbn [orb]. destruct (endswith d sep) eqn:Ee.
    + (* the directory is the root *)
      destruct Hd as [Hd|Hd]; [|congruence].
      unfold dirname. rewrite rfind_app, Hn.
      change (0 <=? -1) with false. cbv iota.
      rewrite (endswith_rfind _ _ Ee).
      replace (len d - 1 + 1) with (len d + 0) by lia.
      rewrite slice_to_app, slice_to_0, app_nil_r by lia.
      rewrite all_sep_rstrip, Hd. rewrite andb_false_r. reflexivity.
    + unfold dirname. rewrite rfind_app, (rfind_sep_cons_plain _ Hn).
      change (0 <=? 0) with true. cbv iota.
      replace (len d + 0 + 1) with (len d + 1) by lia.
      rewrite slice_to_app, slice_to_1 by lia.
      rewrite all_sep_rstrip, rstrip_snoc, (rstrip_id _ _ Ee).
      rewrite Ed. rewrite app_cons. reflexivity.
Qed.

Lemma basename_join (d name : string) :
  plain_name name -> basename (join d name) = name.
Proof.
  intros Hn. rewrite (join_plain _ _ Hn). unfold basename.
  destruct d as [|a d'] eqn:Ed.
  - cbn [is_empty orb]. rewrite app_nil_l, Hn. apply slice_from_0.
  - rewrite <- Ed. replace (is_empty d) with false by (rewrite Ed; reflexivity).
    cbn [orb]. destruct (endswith d sep) eqn:Ee.
    + rewrite rfind_app, Hn. change (0 <=? -1) with false. cbv iota.
      rewrite (endswith_rfind _ _ Ee).
      replace (len d - 1 + 1) with (len d + 0) by lia.
      rewrite slice_from_app by lia. apply slice_from_0.
    + rewrite rfind_app, (rfind_sep_cons_plain _ Hn).
      change (0 <=? 0) with true. cbv iota.
      replace (len d + 0 + 1) with (len d + 1) by lia.
      rewrite slice_from_app by lia. reflexivity.
Qed.

Lemma endswith_snoc (s : string) (c : ascii) :
  endswith (s +:+ String c EmptyString) c = true.
Proof.
  induction s as [|a s IH].
  - simpl. apply Ascii.eqb_refl.
  - rewrite app_cons. destruct s as [|b s]; [simpl; apply Ascii.eqb_refl|].
    rewrite app_cons in *. exact IH.
Qed.

(** Every joined path is a prefix ending in a separator (or no prefix
    at all) followed by the file name. *)
Lemma join_prefix (d name : string) :
  plain_name name ->
  exists pre, join d name = pre +:+ name
              /\ (pre = EmptyString \/ endswith pre sep = true).
Proof.
  intros Hn. rewrite (join_plain _ _ Hn).
  destruct (is_empty d) eqn:Ed.
  - apply is_empty_true in Ed as ->. exists EmptyString. auto.
  - cbn [orb]. destruct (endswith d sep) eqn:Ee.
    + exists d. auto.
    + exists (d +:+ String sep EmptyString). split.
      * rewrite app_assoc. reflexivity.
      * right. apply endswith_snoc.
Qed.

Lemma splitext_plain (name : string) :
  plain_name name -> 0 <= rfind name extsep ->
  snd (splitext name)
  = if all_eq (slice_to name (rfind name extsep)) extsep
    then EmptyString else slice_from name (rfind name extsep).
Proof.
  intros Hn Hdot. unfold splitext. rewrite Hn.
  replace (-1 <? rfind name extsep) with true by (symmetry; apply Z.ltb_lt; lia).
  unfold slice. change (-1 + 1) with 0. rewrite slice_from_0, Z.sub_0_r.
  destruct (all_eq _ _); reflexivity.
Qed.

(** The extension of a joined path is the extension of the file name. *)
Lemma splitext_join (d name : string) :
  plain_name name -> 0 <= rfind name extsep ->
  snd (splitext (join d name)) = snd (splitext name).
Proof.
  intros Hn Hdot.
  destruct (join_prefix d name Hn) as (pre & -> & [-> | Hpre]); [reflexivity|].
  rewrite (splitext_plain _ Hn Hdot).
  unfold splitext. rewrite !rfind_app, Hn.
  change (0 <=? -1) with false. cbv iota.
  replace (0 <=? rfind name extsep) with true by (symmetry; apply Z.leb_le; lia).
  rewrite (endswith_rfind _ _ Hpre).
  replace (len pre - 1 <? len pre + rfind name extsep) with true
    by (symmetry; apply Z.ltb_lt; lia).
  unfold slice.
  replace (len pre - 1 + 1) with (len pre + 0) by lia.
  rewrite slice_from_app, slice_from_0 by lia.
  replace (len pre + rfind name extsep - (len pre + 0)) with (rfind name extsep) by lia.
  rewrite slice_from_app by lia.
  destruct (all_eq _ _); reflexivity.
Qed.

Lemma join_inj (d n1 n2 : string) :
  plain_name n1 -> plain_name n2 -> join d n1 = join d n2 -> n1 = n2.
Proof.
  intros H1 H2. rewrite (join_plain _ _ H1), (join_plain _ _ H2).
  destruct (is_empty d || endswith d sep); intros E.
  - eapply String.app_inj; eassumption.
  - apply String.app_inj in E. congruence.
Qed.

End PathFacts.

(* ===================================================================== *)
(** * Running the library calls *)
(* ===================================================================== *)

Section Execution.
Context {pil : Pillow} (host : Host).
Implicit Types (s : State) (im : Image Raster) (l : loc).

Lemma bind_Ok {A B} (c : M A) (k : A -> M B) s a s' :
  c s = Ok a s' -> bind c k s = k a s'.
Proof. unfold bind. intros ->. reflexivity. Qed.

Lemma bind_Raise {A B} (c : M A) (k : A -> M B) s e s' :
  c s = Raise e s' -> bind c k s = Raise e s'.
Proof. unfold bind. intros ->. reflexivity. Qed.

Lemma deref_Ok l im s : heap s !! l = Some im -> deref l s = Ok im s.
Proof. unfold deref. intros ->. reflexivity. Qed.

(** Drawing replaces the pixels of the image the drawing object refers
    to, and nothing else. *)
Lemma ellipse_Ok l im box fill s :
  heap s !! l = Some im ->
  ellipse {| draw_image := l |} box fill s
  = Ok tt (mkState
             (<[l := mkImage (im_mode im) (im_size im) (raster_ellipse im box fill)]> (heap s))
             (fs s) (stdout s)).
Proof.
  intros Hl. unfold ellipse. cbn [draw_image].
  rewrite (bind_Ok _ _ _ _ _ (deref_Ok _ _ _ Hl)). reflexivity.
Qed.

Lemma text_Ok l im xy txt fill font s :
  heap s !! l = Some im ->
  text {| draw_image := l |} xy txt fill font s
  = Ok tt (mkState
             (<[l := mkImage (im_mode im) (im_size im) (raster_text im xy txt fill font)]>
                (heap s))
             (fs s) (stdout s)).
Proof.
  intros Hl. unfold text. cbn [draw_image].
  rewrite (bind_Ok _ _ _ _ _ (deref_Ok _ _ _ Hl)). reflexivity.
Qed.

Lemma resize_Ok l im size resample s :
  heap s !! l = Some im ->
  0 < fst size -> 0 < snd size ->
  resize l size resample s
  = Ok (length (heap s))
       (mkState (heap s ++ [resized im size resample]) (fs s) (stdout s)).
Proof.
  intros Hl Hw Hh. unfold resize.
  rewrite (bind_Ok _ _ _ _ _ (deref_Ok _ _ _ Hl)).
  apply Z.ltb_lt in Hw, Hh. rewrite Hw, Hh. reflexivity.
Qed.

(** A size that is not positive is refused, and nothing changes. *)
Lemma resize_not_positive l im size resample s :
  heap s !! l = Some im ->
  fst size <= 0 \/ snd size <= 0 ->
  resize l size resample s = Raise (ValueError "height and width must be > 0") s.
Proof.
  intros Hl Hsize. unfold resize.
  rewrite (bind_Ok _ _ _ _ _ (deref_Ok _ _ _ Hl)).
  destruct Hsize as [H | H]; apply Z.ltb_ge in H; rewrite H;
    rewrite ?andb_false_r; reflexivity.
Qed.

Lemma may_open_writable (m : gmap string (File Raster)) path :
  dir_writable host (os_path.dirname path) = true -> may_open host m path = true.
Proof. unfold may_open. intros ->. reflexivity. Qed.

(** Saving an image under a name with the extension .png: when the path
    may be opened, the file becomes a PNG file holding the image and
    nothing else changes; when not, nothing changes at all. *)
Lemma save_png l im path s :
  heap s !! l = Some im ->
  Py.lower (snd (os_path.splitext path)) = ".png" ->
  save host l path s
  = if may_open host (fs s) path
    then Ok tt (mkState (heap s) (<[path := mkFile PNG im]> (fs s)) (stdout s))
    else Raise (PermissionError path) s.
Proof.
  intros Hl Hext. unfold save.
  rewrite (bind_Ok _ _ _ _ _ (deref_Ok _ _ _ Hl)).
  rewrite Hext. change (EXTENSION ".png") with (Some PNG).
  unfold bind, open_wb. destruct (may_open host (fs s) path); reflexivity.
Qed.

Lemma save_png_Ok l im path s :
  heap s !! l = Some im ->
  Py.lower (snd (os_path.splitext path)) = ".png" ->
  dir_writable host (os_path.dirname path) = true ->
  save host l path s
  = Ok tt (mkState (heap s) (<[path := mkFile PNG im]> (fs s)) (stdout s)).
Proof.
  intros Hl Hext Hw. rewrite (save_png l im path s Hl Hext).
  rewrite (may_open_writable _ _ Hw). reflexivity.
Qed.

End Execution.

(* ===================================================================== *)
(** * Running the script *)
(* ===================================================================== *)

Section Badge.
Context {pil : Pillow}.

Lemma int_radius : int (Py.float_of_int 1024 * 0.45) = ret 460.
Proof. reflexivity. Qed.

Lemma int_inner_radius : int (Py.float_of_int 460 * 0.8) = ret 368.
Proof. reflexivity. Qed.

Lemma int_font_size : int (Py.float_of_int 1024 * 0.4) = ret 409.
Proof. reflexivity. Qed.

Lemma select_font (s : State) :
  try_except (n <- int (Py.float_of_int 1024 * 0.4) ;; ImageFont_truetype "arial.ttf" n)
             ImageFont_load_default s
  = Ok selected_font s.
Proof.
  unfold try_except. rewrite int_font_size.
  unfold bind, ret, ImageFont_truetype, ImageFont_load_default, selected_font.
  destruct (font_truetype "arial.ttf" 409); reflexivity.
Qed.

Lemma lookup_new {A} (l : list A) (x : A) : (l ++ [x]) !! length l = Some x.
Proof. apply list_lookup_middle. reflexivity. Qed.

Lemma insert_new {A} (l : list A) (x y : A) : <[length l := y]> (l ++ [x]) = l ++ [y].
Proof.
  rewrite (insert_app_r_alt l [x] (length l) y) by lia.
  rewrite Nat.sub_diag. reflexivity.
Qed.

(** The badge composition never raises: it allocates one image, the
    finished badge, and returns the reference to it. *)
Lemma create_icon_Ok (s : State) :
  create_icon s
  = Ok (length (heap s))
       (mkState (heap s ++ [badge selected_font]) (fs s) (stdout s)).
Proof.
  unfold create_icon. cbv zeta.
  change (1024 `div` 2) with 512.
  rewrite int_radius.
  unfold bind at 1. unfold Image_new, alloc at 1.
  unfold bind at 1. unfold ImageDraw_Draw, ret at 1.
  unfold bind at 1. unfold ret at 1.
  erewrite bind_Ok; [|apply ellipse_Ok; apply lookup_new].
  cbn [heap fs stdout im_mode im_size]. rewrite insert_new.
  rewrite int_inner_radius.
  unfold bind at 1. unfold ret at 1.
  erewrite bind_Ok; [|apply ellipse_Ok; apply lookup_new].
  cbn [heap fs stdout im_mode im_size]. rewrite insert_new.
  erewrite bind_Ok; [|apply select_font].
  unfold bind at 1. unfold textbbox.
  unfold badge, glyph_anchor.
  destruct (font_getbbox selected_font "C") as [[[b0 b1] b2] b3].
  unfold ret at 1. rewrite !Z.add_0_r.
  erewrite bind_Ok; [|apply text_Ok; apply lookup_new].
  cbn [heap fs stdout im_mode im_size]. rewrite insert_new.
  reflexivity.
Qed.

End Badge.

Section Exporting.
Context {pil : Pillow} (host : Host).
Implicit Types (s : State) (im : Image Raster) (m : gmap string (File Raster)).

Lemma sizes_png_names : Forall (fun size => png_name (icon_filename size)) sizes.
Proof. repeat constructor; vm_compute; congruence. Qed.

Lemma icon_png_name : png_name "icon.png".
Proof. repeat constructor; vm_compute; congruence. Qed.

Lemma sizes_positive : Forall (fun size => 0 < size) sizes.
Proof. repeat constructor. Qed.

Lemma save_in_build_dir_general l im name s :
  png_name name ->
  heap s !! l = Some im ->
  save host l (os_path.join (build_dir host) name) s
  = if may_open host (fs s) (os_path.join (build_dir host) name)
    then Ok tt (mkState (heap s)
                        (<[os_path.join (build_dir host) name := mkFile PNG im]> (fs s))
                        (stdout s))
    else Raise (PermissionError (os_path.join (build_dir host) name)) s.
Proof.
  intros (Hplain & Hdot & Hext) Hl.
  apply save_png; [exact Hl|].
  rewrite PathFacts.splitext_join by assumption. exact Hext.
Qed.

Lemma may_open_build_dir m name :
  dir_writable host (build_dir host) = true ->
  plain_name name ->
  may_open host m (os_path.join (build_dir host) name) = true.
Proof.
  intros Hw Hplain. apply may_open_writable.
  rewrite PathFacts.dirname_join; [exact Hw | apply PathFacts.dirname_normal | exact Hplain].
Qed.

Lemma save_in_build_dir l im name s :
  dir_writable host (build_dir host) = true ->
  png_name name ->
  heap s !! l = Some im ->
  save host l (os_path.join (build_dir host) name) s
  = Ok tt (mkState (heap s)
                   (<[os_path.join (build_dir host) name := mkFile PNG im]> (fs s))
                   (stdout s)).
Proof.
  intros Hw Hname Hl. rewrite (save_in_build_dir_general l im name s Hname Hl).
  rewrite (may_open_build_dir _ _ Hw (proj1 Hname)). reflexivity.
Qed.

(** One turn of the loop: the resized copy is allocated in any case; the
    file is written and announced when its path may be opened. *)
Lemma export_size_general base im size s :
  png_name (icon_filename size) ->
  0 < size ->
  heap s !! base = Some im ->
  (resized_ <- resize base (size, size) LANCZOS ;;
   save host resized_ (os_path.join (build_dir host) (icon_filename size)) ;;;
   print ("Created " +:+ icon_filename size)) s
  = if may_open host (fs s) (os_path.join (build_dir host) (icon_filename size))
    then Ok tt (mkState (heap s ++ [resized im (size, size) LANCZOS])
                        (write_files (build_dir host) [sized_file im size] (fs s))
                        (stdout s ++ ["Created " +:+ icon_filename size]))
    else Raise (PermissionError (os_path.join (build_dir host) (icon_filename size)))
               (mkState (heap s ++ [resized im (size, size) LANCZOS]) (fs s) (stdout s)).
Proof.
  intros Hname Hpos Hbase.
  erewrite bind_Ok; [|apply resize_Ok; [exact Hbase | exact Hpos | exact Hpos]].
  unfold bind at 1.
  rewrite (save_in_build_dir_general _ (resized im (size, size) LANCZOS) _ _ Hname)
    by apply lookup_new.
  cbn [fs]. destruct (may_open host (fs s) _); reflexivity.
Qed.

Lemma export_size_Ok base im size s :
  dir_writable host (build_dir host) = true ->
  png_name (icon_filename size) ->
  0 < size ->
  heap s !! base = Some im ->
  (resized_ <- resize base (size, size) LANCZOS ;;
   save host resized_ (os_path.join (build_dir host) (icon_filename size)) ;;;
   print ("Created " +:+ icon_filename size)) s
  = Ok tt (mkState (heap s ++ [resized im (size, size) LANCZOS])
                   (write_files (build_dir host) [sized_file im size] (fs s))
                   (stdout s ++ ["Created " +:+ icon_filename size])).
Proof.
  intros Hw Hname Hpos Hbase.
  rewrite (export_size_general base im size s Hname Hpos Hbase).
  rewrite (may_open_build_dir _ _ Hw (proj1 Hname)). reflexivity.
Qed.

Lemma export_loop_Ok base im (szs : list Z) s :
  dir_writable host (build_dir host) = true ->
  Forall (fun size => png_name (icon_filename size) /\ 0 < size) szs ->
  heap s !! base = Some im ->
  for_in szs (fun size =>
    resized_ <- resize base (size, size) LANCZOS ;;
    save host resized_ (os_path.join (build_dir host) (icon_filename size)) ;;;
    print ("Created " +:+ icon_filename size)) s
  = Ok tt (mkState (heap s ++ map (fun size => resized im (size, size) LANCZOS) szs)
                   (write_files (build_dir host) (map (sized_file im) szs) (fs s))
                   (stdout s ++ map (fun size => "Created " +:+ icon_filename size) szs)).
Proof.
  intros Hw Hnames. revert s.
  induction Hnames as [|size szs [Hname Hpos] _ IH]; intros s Hbase.
  - cbn [for_in map]. rewrite !app_nil_r. destruct s; reflexivity.
  - cbn [for_in].
    erewrite bind_Ok;
      [|apply export_size_Ok; [exact Hw | exact Hname | exact Hpos | exact Hbase]].
    rewrite IH by (apply lookup_app_l_Some; exact Hbase).
    cbn [heap fs stdout map]. rewrite <- !app_assoc. reflexivity.
Qed.

Lemma sizes_well_formed :
  Forall (fun size => png_name (icon_filename size) /\ 0 < size) sizes.
Proof. apply Forall_and. split; [exact sizes_png_names | exact sizes_positive]. Qed.

(** The export in a writable directory: which objects it allocates,
    which files it writes and which lines it prints. *)
Lemma save_icon_sizes_Ok base im s :
  dir_writable host (build_dir host) = true ->
  heap s !! base = Some im ->
  save_icon_sizes host base s
  = Ok tt (mkState (heap s ++ map (fun size => resized im (size, size) LANCZOS) sizes)
                   (write_files (build_dir host) (exported_files im) (fs s))
                   (stdout s
                    ++ map (fun size => "Created " +:+ icon_filename size) sizes
                    ++ ["Created icon.png"])).
Proof.
  intros Hw Hbase. unfold save_icon_sizes.
  erewrite bind_Ok; [|apply export_loop_Ok; [exact Hw | apply sizes_well_formed | exact Hbase]].
  erewrite bind_Ok; [|apply save_in_build_dir;
                      [exact Hw | apply icon_png_name
                      | apply lookup_app_l_Some; exact Hbase]].
  unfold print, exported_files, write_files. cbn [heap fs stdout].
  rewrite foldl_app, <- app_assoc. reflexivity.
Qed.

End Exporting.

Section Files.
Context {pil : Pillow}.
Implicit Types (m : gmap string (File Raster)) (files : list (string * File Raster)).

Lemma write_files_snoc dir files nf m :
  write_files dir (files ++ [nf]) m
  = <[os_path.join dir nf.1 := nf.2]> (write_files dir files m).
Proof. unfold write_files. rewrite foldl_app. reflexivity. Qed.

(** Writing touches no other path. *)
Lemma write_files_lookup_other dir files m p :
  p ∉ paths_of dir (map fst files) ->
  write_files dir files m !! p = m !! p.
Proof.
  induction files as [|nf files IH] using rev_ind; intros Hp; [reflexivity|].
  rewrite write_files_snoc.
  unfold paths_of in *. rewrite !map_app in Hp. cbn [map] in Hp.
  apply not_elem_of_app in Hp as [Hp1 Hp2].
  rewrite lookup_insert_ne; [apply IH, Hp1|].
  intros E. apply Hp2. rewrite E. apply list_elem_of_singleton. reflexivity.
Qed.

(** With pairwise distinct paths, each file ends up under its own path. *)
Lemma write_files_lookup dir files m name f :
  NoDup (paths_of dir (map fst files)) ->
  (name, f) ∈ files ->
  write_files dir files m !! os_path.join dir name = Some f.
Proof.
  induction files as [|nf files IH] using rev_ind; intros Hnd Hin.
  - apply elem_of_nil in Hin. contradiction.
  - rewrite write_files_snoc.
    unfold paths_of in *. rewrite !map_app in Hnd. cbn [map] in Hnd.
    apply NoDup_app in Hnd as (Hnd & Hfresh & _).
    apply elem_of_app in Hin as [Hin | Hin].
    + rewrite lookup_insert_ne; [apply IH; assumption|].
      intros E. apply (Hfresh (os_path.join dir name)).
      * apply (list_elem_of_fmap_2 (os_path.join dir)).
        apply (list_elem_of_fmap_2 fst _ _ Hin).
      * rewrite <- E. apply list_elem_of_singleton. reflexivity.
    + apply list_elem_of_singleton in Hin as <-. apply lookup_insert_eq.
Qed.

Lemma dom_write_files dir files m :
  dom (write_files dir files m)
  = list_to_set (paths_of dir (map fst files)) ∪ dom m.
Proof.
  induction files as [|nf files IH] using rev_ind.
  - cbn. rewrite (left_id_L ∅ (∪)). reflexivity.
  - rewrite write_files_snoc, dom_insert_L, IH.
    unfold paths_of. rewrite !map_app, list_to_set_app_L. cbn [map list_to_set].
    rewrite (right_id_L ∅ (∪)), (assoc_L (∪)).
    f_equal. apply (comm_L (∪)).
Qed.

(** Writing the same files a second time changes nothing. *)
Lemma write_files_twice dir files m :
  NoDup (paths_of dir (map fst files)) ->
  write_files dir files (write_files dir files m) = write_files dir files m.
Proof.
  intros Hnd. apply map_eq. intros p.
  destruct (decide (p ∈ paths_of dir (map fst files))) as [Hin | Hout].
  - unfold paths_of in Hin.
    apply list_elem_of_fmap in Hin as (name & -> & Hin).
    apply list_elem_of_fmap in Hin as ([name' f] & -> & Hin).
    cbn [fst]. rewrite !(write_files_lookup dir files _ name' f Hnd Hin). reflexivity.
  - rewrite write_files_lookup_other by exact Hout. reflexivity.
Qed.

End Files.

Lemma icon_names_eq :
  icon_names
  = ["icon_16x16.png"; "icon_32x32.png"; "icon_64x64.png"; "icon_128x128.png";
     "icon_256x256.png"; "icon_512x512.png"; "icon_1024x1024.png"; "icon.png"].
Proof. reflexivity. Qed.

Lemma icon_names_png : Forall png_name icon_names.
Proof.
  unfold icon_names. apply Forall_app. split.
  - apply Forall_fmap. exact sizes_png_names.
  - constructor; [exact icon_png_name | constructor].
Qed.

Lemma icon_names_NoDup : NoDup icon_names.
Proof. rewrite icon_names_eq. apply (bool_decide_unpack _). vm_compute. exact I. Qed.

(** Distinct names give distinct paths, whatever the directory. *)
Lemma icon_paths_NoDup (dir : string) : NoDup (paths_of dir icon_names).
Proof.
  unfold paths_of. apply NoDup_fmap_2_strong; [|exact icon_names_NoDup].
  intros n1 n2 H1 H2.
  pose proof icon_names_png as Hpng. rewrite Forall_forall in Hpng.
  apply PathFacts.join_inj; [apply (Hpng n1 H1) | apply (Hpng n2 H2)].
Qed.

(** Every path of the export lies in the directory of the script and
    carries the name it was formed from. *)
Lemma icon_path_in_build_dir (host : Host) (name : string) :
  name ∈ icon_names ->
  os_path.dirname (os_path.join (build_dir host) name) = build_dir host
  /\ os_path.basename (os_path.join (build_dir host) name) = name.
Proof.
  intros Hin. pose proof icon_names_png as Hpng. rewrite Forall_forall in Hpng.
  destruct (Hpng name Hin) as (Hplain & _). split.
  - apply PathFacts.dirname_join; [apply PathFacts.dirname_normal | exact Hplain].
  - apply PathFacts.basename_join. exact Hplain.
Qed.

Section Run.
Context {pil : Pillow} (host : Host).
Implicit Types (s : State) (im : Image Raster).

Lemma exported_names im : map fst (exported_files im) = icon_names.
Proof. reflexivity. Qed.

Lemma exported_NoDup im dir : NoDup (paths_of dir (map fst (exported_files im))).
Proof. rewrite exported_names. apply icon_paths_NoDup. Qed.

(** The whole run in a writable directory. *)
Lemma main_Ok s :
  dir_writable host (build_dir host) = true ->
  main host s
  = Ok tt (mkState
             (heap s ++ badge selected_font
                     :: map (fun size => resized (badge selected_font) (size, size) LANCZOS)
                            sizes)
             (write_files (build_dir host) (exported_files (badge selected_font)) (fs s))
             (stdout s ++ "Creating CoreLink macOS icon..."
                       :: progress_lines ++ closing_lines)).
Proof.
  intros Hw. unfold main.
  unfold bind at 1. unfold print at 1.
  erewrite bind_Ok; [|apply create_icon_Ok].
  erewrite bind_Ok; [|apply save_icon_sizes_Ok; [exact Hw | apply lookup_new]].
  unfold bind, print, progress_lines, closing_lines. cbn [heap fs stdout].
  rewrite <- !app_assoc. reflexivity.
Qed.

(** The export of a reference to no object stops at once. *)
Lemma save_icon_sizes_dangling base s :
  heap s !! base = None ->
  save_icon_sizes host base s = Raise (DanglingReference base) s.
Proof.
  intros Hbase. unfold save_icon_sizes, sizes. cbn [for_in].
  apply bind_Raise. apply bind_Raise. apply bind_Raise.
  unfold resize. apply bind_Raise. unfold deref. rewrite Hbase. reflexivity.
Qed.

(** ** The export under any permissions *)

Lemma write_while_app (files1 files2 : list (string * File Raster))
    (m : gmap string (File Raster)) :
  write_while host (files1 ++ files2) m
  = match write_while host files1 m with
    | (written1, None) =>
        let '(written2, stopped) :=
          write_while host files2 (write_files (build_dir host) written1 m) in
        (written1 ++ written2, stopped)
    | (written1, Some path) => (written1, Some path)
    end.
Proof.
  revert m. induction files1 as [|nf files1 IH]; intros m.
  - cbn. destruct (write_while host files2 m). reflexivity.
  - cbn [app write_while].
    destruct (may_open host m _); [|reflexivity].
    rewrite IH. destruct (write_while host files1 _) as [written1 [path|]];
      [reflexivity|].
    cbn [write_files foldl]. destruct (write_while host files2 _). reflexivity.
Qed.

(** The loop writes the files of the sizes in order until one may not be
    opened. *)
Lemma export_loop_general base im (szs : list Z) s :
  Forall (fun size => png_name (icon_filename size) /\ 0 < size) szs ->
  heap s !! base = Some im ->
  exists new,
    for_in szs (fun size =>
      resized_ <- resize base (size, size) LANCZOS ;;
      save host resized_ (os_path.join (build_dir host) (icon_filename size)) ;;;
      print ("Created " +:+ icon_filename size)) s
    = finish (write_while host (map (sized_file im) szs) (fs s)).2
        (mkState (heap s ++ new)
           (write_files (build_dir host)
              (write_while host (map (sized_file im) szs) (fs s)).1 (fs s))
           (stdout s
            ++ map created_line (write_while host (map (sized_file im) szs) (fs s)).1)).
Proof.
  intros Hnames. revert s.
  induction Hnames as [|size szs [Hname Hpos] _ IH]; intros s Hbase.
  - exists []. cbn. rewrite !app_nil_r. destruct s; reflexivity.
  - cbn [for_in map write_while]. unfold bind at 1.
    rewrite (export_size_general host base im size s Hname Hpos Hbase).
    cbn [sized_file fst snd].
    destruct (may_open host (fs s) _).
    + destruct (IH (mkState (heap s ++ [resized im (size, size) LANCZOS])
                      (write_files (build_dir host) [sized_file im size] (fs s))
                      (stdout s ++ ["Created " +:+ icon_filename size])))
        as [new Hrest]; [apply lookup_app_l_Some; exact Hbase|].
      exists (resized im (size, size) LANCZOS :: new).
      rewrite Hrest. cbn [heap fs stdout write_files foldl sized_file fst snd].
      destruct (write_while host (map (sized_file im) szs) _) as [written stopped].
      cbn [fst snd map write_files foldl created_line].
      rewrite <- !app_assoc. reflexivity.
    + exists [resized im (size, size) LANCZOS]. cbn. rewrite app_nil_r. reflexivity.
Qed.

(** So does the export as a whole, icon.png coming last. *)
Lemma save_icon_sizes_general base im s :
  heap s !! base = Some im ->
  exists new,
    save_icon_sizes host base s
    = finish (write_while host (exported_files im) (fs s)).2
        (mkState (heap s ++ new)
           (write_files (build_dir host)
              (write_while host (exported_files im) (fs s)).1 (fs s))
           (stdout s ++ map created_line (write_while host (exported_files im) (fs s)).1)).
Proof.
  intros Hbase. unfold save_icon_sizes, exported_files.
  destruct (export_loop_general base im sizes s sizes_well_formed Hbase) as [new Hloop].
  rewrite write_while_app.
  destruct (write_while host (map (sized_file im) sizes) (fs s)) as [written [path|]];
    cbn [fst snd finish] in Hloop.
  - exists new. rewrite (bind_Raise _ _ _ _ _ Hloop). reflexivity.
  - exists new. rewrite (bind_Ok _ _ _ _ _ Hloop). unfold bind at 1.
    rewrite (save_in_build_dir_general host base im "icon.png");
      [|exact icon_png_name | cbn [heap]; apply lookup_app_l_Some; exact Hbase].
    cbn [heap fs stdout write_while fst snd].
    destruct (may_open host _ _).
    + cbn [fst snd finish print]. unfold print. cbn [heap fs stdout].
      rewrite map_app, <- app_assoc. unfold write_files. rewrite foldl_app.
      reflexivity.
    + cbn [fst snd finish]. rewrite !app_nil_r. reflexivity.
Qed.

(** The whole run under any permissions: the badge is composed, the files
    are written in order until one may not be opened, and the closing
    lines are printed when all were written. *)
Lemma main_general s :
  exists new,
    main host s
    = match (write_while host (exported_files (badge selected_font)) (fs s)).2 with
      | None =>
          Ok tt (mkState (heap s ++ new)
                   (write_files (build_dir host)
                      (write_while host (exported_files (badge selected_font)) (fs s)).1
                      (fs s))
                   (stdout s ++ "Creating CoreLink macOS icon..."
                      :: map created_line
                           (write_while host (exported_files (badge selected_font)) (fs s)).1
                      ++ closing_lines))
      | Some path =>
          Raise (PermissionError path)
                (mkState (heap s ++ new)
                   (write_files (build_dir host)
                      (write_while host (exported_files (badge selected_font)) (fs s)).1
                      (fs s))
                   (stdout s ++ "Creating CoreLink macOS icon..."
                      :: map created_line
                           (write_while host (exported_files (badge selected_font)) (fs s)).1))
      end.
Proof.
  unfold main. unfold bind at 1. unfold print at 1.
  erewrite bind_Ok; [|apply create_icon_Ok].
  destruct (save_icon_sizes_general (length (heap s)) (badge selected_font)
              (mkState (heap s ++ [badge selected_font]) (fs s)
                       (stdout s ++ ["Creating CoreLink macOS icon..."])))
    as [new Hexport]; [apply lookup_new|].
  cbn [heap fs stdout] in Hexport.
  exists (badge selected_font :: new).
  destruct (write_while host (exported_files (badge selected_font)) (fs s))
    as [written [path|]]; cbn [fst snd finish] in *.
  - rewrite (bind_Raise _ _ _ _ _ Hexport). rewrite <- !app_assoc. reflexivity.
  - rewrite (bind_Ok _ _ _ _ _ Hexport). unfold bind, print, closing_lines.
    cbn [heap fs stdout]. rewrite <- !app_assoc. reflexivity.
Qed.

End Run.

Section Permissions.
Context {pil : Pillow} (host : Host).
Implicit Types (m : gmap string (File Raster)) (files : list (string * File Raster)).

Lemma final_state_finish (stopped : option string) (s : State) :
  final_state (finish stopped s) = s.
Proof. destruct stopped; reflexivity. Qed.

Lemma succeeded_finish (stopped : option string) (s : State) :
  succeeded (finish stopped s) = match stopped with None => true | Some _ => false end.
Proof. destruct stopped; reflexivity. Qed.

(** Whether a path may be opened depends on the file system only through
    whether the file is there, and a file that is there stays openable. *)
Lemma may_open_exists m m' path :
  may_open host m path = true -> is_Some (m' !! path) ->
  may_open host m' path = true.
Proof.
  unfold may_open. intros Hopen [f ->].
  destruct (dir_writable host _); [reflexivity|]. cbn [orb] in *.
  destruct (file_writable host path); [reflexivity | discriminate].
Qed.

Lemma may_open_same m m' path :
  m' !! path = m !! path -> may_open host m' path = may_open host m path.
Proof. unfold may_open. intros ->. reflexivity. Qed.

(** What has been written is the beginning of the list, and the path
    that stopped the writing is the next one. *)
Lemma write_while_split files m :
  exists rest,
    files = (write_while host files m).1 ++ rest
    /\ match (write_while host files m).2 with
       | None => rest = []
       | Some path =>
           exists nf rest',
             rest = nf :: rest'
             /\ path = os_path.join (build_dir host) nf.1
             /\ may_open host
                  (write_files (build_dir host) (write_while host files m).1 m) path
                = false
       end.
Proof.
  revert m. induction files as [|nf files IH]; intros m.
  - exists []. split; reflexivity.
  - cbn [write_while]. destruct (may_open host m _) eqn:Hopen.
    + destruct (IH (<[os_path.join (build_dir host) nf.1 := nf.2]> m)) as (rest & Hsplit & Hstop).
      destruct (write_while host files _) as [written stopped]. cbn [fst snd] in *.
      exists rest. split; [rewrite Hsplit at 1; reflexivity | exact Hstop].
    + exists (nf :: files). split; [reflexivity|].
      exists nf, files. repeat split. exact Hopen.
Qed.

Lemma write_while_paths files m path :
  path ∉ paths_of (build_dir host) (map fst files) ->
  path ∉ paths_of (build_dir host) (map fst (write_while host files m).1).
Proof.
  destruct (write_while_split files m) as (rest & Hsplit & _).
  intros Hout Hin. apply Hout. rewrite Hsplit.
  unfold paths_of in *. rewrite !map_app. apply elem_of_app. left. exact Hin.
Qed.

Lemma write_while_NoDup files m :
  NoDup (paths_of (build_dir host) (map fst files)) ->
  NoDup (paths_of (build_dir host) (map fst (write_while host files m).1)).
Proof.
  destruct (write_while_split files m) as (rest & Hsplit & _).
  intros Hnd. rewrite Hsplit in Hnd. unfold paths_of in *.
  rewrite !map_app in Hnd. apply NoDup_app in Hnd as (Hnd & _). exact Hnd.
Qed.

(** In a directory where the process may create and overwrite files,
    everything is written. *)
Lemma write_while_writable files m :
  dir_writable host (build_dir host) = true ->
  Forall (fun nf => plain_name nf.1) files ->
  write_while host files m = (files, None).
Proof.
  intros Hw Hplain. revert m.
  induction Hplain as [|nf files Hnf _ IH]; intros m; [reflexivity|].
  cbn [write_while]. rewrite (may_open_build_dir host m nf.1 Hw Hnf), IH. reflexivity.
Qed.

(** So is it where no entry can be created, when every file is there
    already and may be written. *)
Lemma write_while_existing files m :
  Forall (fun nf => file_writable host (os_path.join (build_dir host) nf.1) = true
                    /\ is_Some (m !! os_path.join (build_dir host) nf.1)) files ->
  write_while host files m = (files, None).
Proof.
  intros Hfiles. revert m Hfiles.
  induction files as [|nf files IH]; intros m Hfiles; [reflexivity|].
  apply Forall_cons in Hfiles as [[Hfile [f Hf]] Hfiles].
  cbn [write_while].
  replace (may_open host m (os_path.join (build_dir host) nf.1)) with true.
  - rewrite IH; [reflexivity|].
    eapply Forall_impl; [exact Hfiles|]. intros nf' [Hfile' Hsome]. split; [exact Hfile'|].
    apply lookup_insert_is_Some'. right. exact Hsome.
  - symmetry. unfold may_open. rewrite Hfile, Hf. apply orb_true_r.
Qed.

(** Writing the same list a second time, over what the first time left,
    writes the same files and stops at the same path. *)
Lemma write_while_twice files m :
  NoDup (paths_of (build_dir host) (map fst files)) ->
  write_while host files
    (write_files (build_dir host) (write_while host files m).1 m)
  = write_while host files m.
Proof.
  revert m. induction files as [|nf files IH]; intros m Hnd; [reflexivity|].
  unfold paths_of in Hnd. cbn [map] in Hnd. apply NoDup_cons in Hnd as [Hfresh Hnd].
  cbn [write_while]. destruct (may_open host m _) eqn:Hopen.
  - specialize (IH (<[os_path.join (build_dir host) nf.1 := nf.2]> m) Hnd).
    pose proof (write_while_paths files
                  (<[os_path.join (build_dir host) nf.1 := nf.2]> m) _ Hfresh) as Hfresh'.
    destruct (write_while host files (<[os_path.join (build_dir host) nf.1 := nf.2]> m))
      as [written stopped] eqn:Hrest.
    cbn [fst snd] in *.
    change (write_files (build_dir host) (nf :: written) m) with
      (write_files (build_dir host) written
         (<[os_path.join (build_dir host) nf.1 := nf.2]> m)).
    assert (Hthere :
      write_files (build_dir host) written
        (<[os_path.join (build_dir host) nf.1 := nf.2]> m)
        !! os_path.join (build_dir host) nf.1 = Some nf.2).
    { rewrite write_files_lookup_other by exact Hfresh'. apply lookup_insert_eq. }
    rewrite (may_open_exists m _ _ Hopen) by (rewrite Hthere; eexists; reflexivity).
    rewrite (insert_id _ _ _ Hthere), IH. reflexivity.
  - cbn [fst write_files foldl write_while]. rewrite Hopen. reflexivity.
Qed.

(** Every file that was written is there afterwards. *)
Lemma write_files_is_Some files m name :
  name ∈ map fst files ->
  is_Some (write_files (build_dir host) files m !! os_path.join (build_dir host) name).
Proof.
  induction files as [|nf files IH] using rev_ind; intros Hin.
  - apply elem_of_nil in Hin. contradiction.
  - rewrite write_files_snoc. apply lookup_insert_is_Some'.
    rewrite map_app in Hin. apply elem_of_app in Hin as [Hin | Hin].
    + right. apply IH. exact Hin.
    + left. apply list_elem_of_singleton in Hin. rewrite Hin. reflexivity.
Qed.

End Permissions.

(* ===================================================================== *)
(** * The export only allocates *)
(* ===================================================================== *)

Section Frame.
Context {pil : Pillow} (host : Host).
Implicit Types (s : State) (im : Image Raster).

Lemma allocates_only_ret {A} (a : A) : allocates_only (ret a).
Proof. intros s. reflexivity. Qed.

Lemma allocates_only_raise {A} (e : exn) : allocates_only (raise (A := A) e).
Proof. intros s. reflexivity. Qed.

Lemma allocates_only_bind {A B} (c : M A) (k : A -> M B) :
  allocates_only c -> (forall a, allocates_only (k a)) -> allocates_only (bind c k).
Proof.
  intros Hc Hk s. unfold bind. specialize (Hc s).
  destruct (c s) as [a s' | e s']; cbn [final_state] in *; [|exact Hc].
  etrans; [exact Hc | apply Hk].
Qed.

Lemma allocates_only_alloc im : allocates_only (alloc im).
Proof. intros s. cbn. apply prefix_app_r. reflexivity. Qed.

Lemma allocates_only_deref l : allocates_only (deref l).
Proof. intros s. unfold deref. destruct (heap s !! l); reflexivity. Qed.

Lemma allocates_only_print line : allocates_only (print line).
Proof. intros s. reflexivity. Qed.

Lemma allocates_only_write_file path f : allocates_only (write_file path f).
Proof. intros s. reflexivity. Qed.

Lemma allocates_only_resize l size resample : allocates_only (resize l size resample).
Proof.
  apply allocates_only_bind; [apply allocates_only_deref|].
  intros im. destruct ((0 <? fst size) && (0 <? snd size));
    [apply allocates_only_alloc | apply allocates_only_raise].
Qed.

Lemma allocates_only_save l path : allocates_only (save host l path).
Proof.
  apply allocates_only_bind; [apply allocates_only_deref|].
  intros im. cbv beta zeta.
  destruct (EXTENSION _) as [format|]; [|apply allocates_only_raise].
  apply allocates_only_bind.
  - intros s. unfold open_wb. destruct (may_open host (fs s) path); reflexivity.
  - intros _. destruct (writes_mode format (im_mode im));
      [apply allocates_only_write_file | apply allocates_only_raise].
Qed.

Lemma allocates_only_for_in {A} (xs : list A) (body : A -> M unit) :
  (forall x, allocates_only (body x)) -> allocates_only (for_in xs body).
Proof.
  intros Hbody. induction xs as [|x xs IH]; cbn [for_in].
  - apply allocates_only_ret.
  - apply allocates_only_bind; [apply Hbody | intros _; exact IH].
Qed.

Lemma allocates_only_save_icon_sizes base : allocates_only (save_icon_sizes host base).
Proof.
  unfold save_icon_sizes.
  apply allocates_only_bind.
  - apply allocates_only_for_in. intros size.
    apply allocates_only_bind; [apply allocates_only_resize|]. intros resized_.
    apply allocates_only_bind; [apply allocates_only_save|]. intros _.
    apply allocates_only_print.
  - intros _. apply allocates_only_bind; [apply allocates_only_save|].
    intros _. apply allocates_only_print.
Qed.

End Frame.

(* ===================================================================== *)
(** * The script on the reference implementation *)
(* ===================================================================== *)

Example radius_is_460 : Py.int_of_float (Py.float_of_int 1024 * 0.45) = Some 460.
Proof. reflexivity. Qed.

Example inner_radius_is_368 : Py.int_of_float (Py.float_of_int 460 * 0.8) = Some 368.
Proof. reflexivity. Qed.

Example build_dir_of_mac : build_dir DisplayList.mac = "/Users/dev/corelink/build".
Proof. reflexivity. Qed.

Example path_of_icon_16 :
  os_path.join (build_dir DisplayList.mac) (icon_filename 16)
  = "/Users/dev/corelink/build/icon_16x16.png".
Proof. reflexivity. Qed.

Example badge_with_arial :
  returned_image (create_icon (DisplayList.init (DisplayList.pillow true)))
  = Some (mkImage RGBA (1024, 1024)
            (DisplayList.Text
               (DisplayList.Ellipse
                  (DisplayList.Ellipse
                     (DisplayList.New RGBA (1024, 1024) (0, 0, 0, 0))
                     (52, 52, 972, 972) (41, 128, 185, 255))
                  (144, 144, 880, 880) (52, 152, 219, 255))
               (379, 363) "C" (255, 255, 255, 255)
               (DisplayList.TrueType "arial.ttf" 409))).
Proof. reflexivity. Qed.

Example badge_without_arial :
  im_pixels <$> returned_image (create_icon (DisplayList.init (DisplayList.pillow false)))
  = Some (DisplayList.Text
            (DisplayList.Ellipse
               (DisplayList.Ellipse
                  (DisplayList.New RGBA (1024, 1024) (0, 0, 0, 0))
                  (52, 52, 972, 972) (41, 128, 185, 255))
               (144, 144, 880, 880) (52, 152, 219, 255))
            (509, 507) "C" (255, 255, 255, 255) DisplayList.Builtin).
Proof. reflexivity. Qed.

Example run_on_mac :
  let r := main DisplayList.mac (DisplayList.init (DisplayList.pillow true)) in
  succeeded r = true
  /\ length (map_to_list (fs (final_state r))) = 8%nat
  /\ length (heap (final_state r)) = 8%nat
  /\ length (stdout (final_state r)) = 14%nat.
Proof. vm_compute. repeat split. Qed.

Example run_on_readonly_mac :
  let r := main DisplayList.readonly_mac (DisplayList.init (DisplayList.pillow true)) in
  outputs DisplayList.readonly_mac r
  = inl (PermissionError "/Users/dev/corelink/build/icon_16x16.png")
  /\ fs (final_state r) = ∅
  /\ stdout (final_state r) = ["Creating CoreLink macOS icon..."].
Proof. vm_compute. repeat split. Qed.

(* ===================================================================== *)
(** * Properties of the export and of the whole run *)
(* ===================================================================== *)

(** C1: for every size S of the configured list, the raster written to
    icon_{S}x{S}.png is S pixels wide and S pixels high.  The export is run
    on any base image, in a writable directory. *)
Theorem sized_icons_have_requested_size {pil : Pillow} (host : Host)
    (base : loc) (im : Image Raster) (s : State) :
  dir_writable host (build_dir host) = true ->
  heap s !! base = Some im ->
  exists s',
    save_icon_sizes host base s = Ok tt s'
    /\ sizes = [16; 32; 64; 128; 256; 512; 1024]
    /\ forall S, S ∈ sizes ->
         exists f,
           fs s' !! os_path.join (build_dir host) (icon_filename S) = Some f
           /\ width (file_image f) = S /\ height (file_image f) = S.
Proof.
  intros Hw Hbase. eexists. split; [apply save_icon_sizes_Ok; eassumption|].
  split; [reflexivity|]. intros S HS. cbn [fs].
  exists (mkFile PNG (resized im (S, S) LANCZOS)). split; [|split; reflexivity].
  apply write_files_lookup; [apply exported_NoDup|].
  unfold exported_files. apply elem_of_app. left.
  apply (list_elem_of_fmap_2 (sized_file im) _ _ HS).
Qed.

Lemma sized_icons_have_requested_size_witness :
  exists s',
    save_icon_sizes (pil := DisplayList.pillow true) DisplayList.mac 0%nat (DisplayList.drawn true) = Ok tt s'
    /\ sizes = [16; 32; 64; 128; 256; 512; 1024]
    /\ forall S, S ∈ sizes ->
         exists f,
           fs s' !! os_path.join (build_dir DisplayList.mac) (icon_filename S) = Some f
           /\ width (file_image f) = S /\ height (file_image f) = S.
Proof.
  apply (sized_icons_have_requested_size (pil := DisplayList.pillow true) DisplayList.mac 0%nat
           (badge (pil := DisplayList.pillow true) (DisplayList.TrueType "arial.ttf" 409)) (DisplayList.drawn true));
    reflexivity.
Defined.

(** The names of the claim, as the script forms them. *)
Example icon_filename_16 : icon_filename 16 = "icon_16x16.png".
Proof. reflexivity. Qed.

Example icon_filename_1024 : icon_filename 1024 = "icon_1024x1024.png".
Proof. reflexivity. Qed.

(** C2: in a writable directory the run completes without an exception
    and writes exactly eight files, under eight distinct paths that all
    lie in the directory of the script and carry the names
    icon_16x16.png ... icon_1024x1024.png and icon.png; no other path of
    the file system is touched. *)
Theorem run_writes_eight_files {pil : Pillow} (host : Host) (s : State) :
  dir_writable host (build_dir host) = true ->
  exists s' files,
    main host s = Ok tt s'
    /\ map fst files
       = ["icon_16x16.png"; "icon_32x32.png"; "icon_64x64.png"; "icon_128x128.png";
          "icon_256x256.png"; "icon_512x512.png"; "icon_1024x1024.png"; "icon.png"]
    /\ fs s' = write_files (build_dir host) files (fs s)
    /\ NoDup (paths_of (build_dir host) (map fst files))
    /\ dom (fs s') = list_to_set (paths_of (build_dir host) (map fst files)) ∪ dom (fs s)
    /\ (forall p, p ∉ paths_of (build_dir host) (map fst files) -> fs s' !! p = fs s !! p)
    /\ (forall name, name ∈ map fst files ->
          os_path.dirname (os_path.join (build_dir host) name)
          = os_path.dirname (script_path host)
          /\ os_path.basename (os_path.join (build_dir host) name) = name).
Proof.
  intros Hw. eexists. exists (exported_files (badge selected_font)).
  split; [apply main_Ok; exact Hw|]. cbn [fs].
  split; [reflexivity|]. split; [reflexivity|].
  split; [apply exported_NoDup|].
  split; [apply dom_write_files|].
  split; [intros p Hp; apply write_files_lookup_other; exact Hp|].
  intros name Hname. rewrite exported_names in Hname.
  apply icon_path_in_build_dir. exact Hname.
Qed.

Lemma run_writes_eight_files_witness :
  exists s' files,
    main (pil := DisplayList.pillow true) DisplayList.mac (DisplayList.init (DisplayList.pillow true)) = Ok tt s'
    /\ map fst files
       = ["icon_16x16.png"; "icon_32x32.png"; "icon_64x64.png"; "icon_128x128.png";
          "icon_256x256.png"; "icon_512x512.png"; "icon_1024x1024.png"; "icon.png"]
    /\ fs s' = write_files (build_dir DisplayList.mac) files (fs (DisplayList.init (DisplayList.pillow true)))
    /\ NoDup (paths_of (build_dir DisplayList.mac) (map fst files))
    /\ dom (fs s') = list_to_set (paths_of (build_dir DisplayList.mac) (map fst files)) ∪ dom (fs (DisplayList.init (DisplayList.pillow true)))
    /\ (forall p, p ∉ paths_of (build_dir DisplayList.mac) (map fst files) ->
          fs s' !! p = fs (DisplayList.init (DisplayList.pillow true)) !! p)
    /\ (forall name, name ∈ map fst files ->
          os_path.dirname (os_path.join (build_dir DisplayList.mac) name)
          = os_path.dirname (script_path DisplayList.mac)
          /\ os_path.basename (os_path.join (build_dir DisplayList.mac) name) = name).
Proof.
  apply (run_writes_eight_files (pil := DisplayList.pillow true) DisplayList.mac (DisplayList.init (DisplayList.pillow true))). reflexivity.
Defined.

(** C3: the raster written to icon.png has the size of the base canvas,
    1024 by 1024. *)
Theorem full_size_icon_is_1024 {pil : Pillow} (host : Host) (s : State) :
  dir_writable host (build_dir host) = true ->
  exists s' f,
    main host s = Ok tt s'
    /\ fs s' !! os_path.join (build_dir host) "icon.png" = Some f
    /\ width (file_image f) = 1024 /\ height (file_image f) = 1024.
Proof.
  intros Hw. eexists. exists (mkFile PNG (badge selected_font)).
  split; [apply main_Ok; exact Hw|]. cbn [fs].
  split; [|split; reflexivity].
  apply write_files_lookup; [apply exported_NoDup|].
  unfold exported_files. apply elem_of_app. right.
  apply list_elem_of_singleton. reflexivity.
Qed.

Lemma full_size_icon_is_1024_witness :
  exists s' f,
    main (pil := DisplayList.pillow true) DisplayList.mac (DisplayList.init (DisplayList.pillow true)) = Ok tt s'
    /\ fs s' !! os_path.join (build_dir DisplayList.mac) "icon.png" = Some f
    /\ width (file_image f) = 1024 /\ height (file_image f) = 1024.
Proof.
  apply (full_size_icon_is_1024 (pil := DisplayList.pillow true) DisplayList.mac (DisplayList.init (DisplayList.pillow true))). reflexivity.
Defined.

Section ExportFacts.
Context {pil : Pillow} (host : Host).
Implicit Types (s : State) (im : Image Raster).

(** Every exported file is a PNG file of the mode of the base image. *)
Lemma exported_files_format im name f :
  (name, f) ∈ exported_files im ->
  file_format f = PNG /\ im_mode (file_image f) = im_mode im.
Proof.
  unfold exported_files. intros [Hin | Hin]%elem_of_app.
  - apply list_elem_of_fmap in Hin as (size & E & _).
    unfold sized_file in E. injection E as -> ->. split; reflexivity.
  - apply list_elem_of_singleton in Hin. injection Hin as -> ->. split; reflexivity.
Qed.

(** After a successful run each of the eight paths holds the file the
    export formed for it. *)
Lemma exported_lookup im m name :
  name ∈ icon_names ->
  exists f,
    (name, f) ∈ exported_files im
    /\ write_files (build_dir host) (exported_files im) m
         !! os_path.join (build_dir host) name = Some f.
Proof.
  intros Hin. rewrite <- (exported_names im) in Hin.
  apply list_elem_of_fmap in Hin as ([name' f] & -> & Hin). cbn [fst].
  exists f. split; [exact Hin|].
  apply write_files_lookup; [apply exported_NoDup | exact Hin].
Qed.

End ExportFacts.

(** C4: when loading arial.ttf fails, with whatever exception, the
    composition does not raise and draws the glyph in the built-in
    default font; in a writable directory the run then completes as
    usual: all eight files are written, the full-size one holds the badge
    in the default font, and the output consists of the usual lines
    only. *)
Theorem font_failure_falls_back_to_default {pil : Pillow} (host : Host)
    (e : exn) (s : State) :
  font_truetype "arial.ttf" 409 = inl e ->
  dir_writable host (build_dir host) = true ->
  create_icon s
  = Ok (length (heap s)) (mkState (heap s ++ [badge font_default]) (fs s) (stdout s))
  /\ exists s',
       main host s = Ok tt s'
       /\ (forall name,
             name ∈ ["icon_16x16.png"; "icon_32x32.png"; "icon_64x64.png";
                     "icon_128x128.png"; "icon_256x256.png"; "icon_512x512.png";
                     "icon_1024x1024.png"; "icon.png"] ->
             is_Some (fs s' !! os_path.join (build_dir host) name))
       /\ fs s' !! os_path.join (build_dir host) "icon.png"
          = Some (mkFile PNG (badge font_default))
       /\ stdout s'
          = stdout s ++ "Creating CoreLink macOS icon..." :: progress_lines ++ closing_lines.
Proof.
  intros Hfont Hw.
  assert (Hsel : selected_font = font_default) by (unfold selected_font; rewrite Hfont; reflexivity).
  split; [rewrite create_icon_Ok, Hsel; reflexivity|].
  eexists. split; [apply main_Ok; exact Hw|]. cbn [fs stdout]. rewrite Hsel.
  split; [|split; [|reflexivity]].
  - intros name Hname. rewrite <- icon_names_eq in Hname.
    destruct (exported_lookup host (badge font_default) (fs s) name Hname) as (f & _ & ->).
    eexists; reflexivity.
  - apply write_files_lookup; [apply exported_NoDup|].
    unfold exported_files. apply elem_of_app. right.
    apply list_elem_of_singleton. reflexivity.
Qed.

Lemma font_failure_falls_back_to_default_witness :
  let P := DisplayList.pillow false in
  let s := DisplayList.init P in
  create_icon s
  = Ok (length (heap s)) (mkState (heap s ++ [badge font_default]) (fs s) (stdout s))
  /\ exists s',
       main DisplayList.mac s = Ok tt s'
       /\ (forall name,
             name ∈ ["icon_16x16.png"; "icon_32x32.png"; "icon_64x64.png";
                     "icon_128x128.png"; "icon_256x256.png"; "icon_512x512.png";
                     "icon_1024x1024.png"; "icon.png"] ->
             is_Some (fs s' !! os_path.join (build_dir DisplayList.mac) name))
       /\ fs s' !! os_path.join (build_dir DisplayList.mac) "icon.png"
          = Some (mkFile PNG (badge font_default))
       /\ stdout s'
          = stdout s ++ "Creating CoreLink macOS icon..." :: progress_lines ++ closing_lines.
Proof.
  intros P s.
  apply (font_failure_falls_back_to_default (pil := P) DisplayList.mac
           (OSError "cannot open resource") s); reflexivity.
Defined.

(** C9: the canvas is created in mode RGBA, and after a run in a writable
    directory each of the eight files is a PNG file whose raster is in
    mode RGBA, so it carries its alpha channel. *)
Theorem output_files_are_rgba_png {pil : Pillow} (host : Host) (s : State) :
  dir_writable host (build_dir host) = true ->
  im_mode canvas = RGBA
  /\ exists s',
       main host s = Ok tt s'
       /\ forall name,
            name ∈ ["icon_16x16.png"; "icon_32x32.png"; "icon_64x64.png";
                    "icon_128x128.png"; "icon_256x256.png"; "icon_512x512.png";
                    "icon_1024x1024.png"; "icon.png"] ->
            exists f,
              fs s' !! os_path.join (build_dir host) name = Some f
              /\ file_format f = PNG
              /\ im_mode (file_image f) = RGBA
              /\ has_alpha (im_mode (file_image f)) = true.
Proof.
  intros Hw. split; [reflexivity|].
  eexists. split; [apply main_Ok; exact Hw|]. cbn [fs].
  intros name Hname. rewrite <- icon_names_eq in Hname.
  destruct (exported_lookup host (badge selected_font) (fs s) name Hname) as (f & Hf & ->).
  apply exported_files_format in Hf as [Hformat Hmode].
  exists f. rewrite Hmode.
  split; [reflexivity|]. split; [exact Hformat|]. split; reflexivity.
Qed.

Lemma output_files_are_rgba_png_witness :
  let P := DisplayList.pillow true in
  im_mode (canvas (pil := P)) = RGBA
  /\ exists s',
       main DisplayList.mac (DisplayList.init P) = Ok tt s'
       /\ forall name,
            name ∈ ["icon_16x16.png"; "icon_32x32.png"; "icon_64x64.png";
                    "icon_128x128.png"; "icon_256x256.png"; "icon_512x512.png";
                    "icon_1024x1024.png"; "icon.png"] ->
            exists f,
              fs s' !! os_path.join (build_dir DisplayList.mac) name = Some f
              /\ file_format f = PNG
              /\ im_mode (file_image f) = RGBA
              /\ has_alpha (im_mode (file_image f)) = true.
Proof.
  intros P.
  apply (output_files_are_rgba_png (pil := P) DisplayList.mac (DisplayList.init P)).
  reflexivity.
Defined.

(** C5: two runs in the same library, font and host environment, in a
    script directory where files can be created and overwritten, agree,
    whatever objects, files and output each of them starts with: the
    composition returns the same raster in both, both runs complete, and
    they leave the same contents in each of the eight files. *)
Theorem runs_are_deterministic {pil : Pillow} (host : Host) (s1 s2 : State) :
  dir_writable host (build_dir host) = true ->
  returned_image (create_icon s1) = Some (badge selected_font)
  /\ returned_image (create_icon s2) = Some (badge selected_font)
  /\ succeeded (main host s1) = true
  /\ succeeded (main host s2) = true
  /\ outputs host (main host s1) = outputs host (main host s2).
Proof.
  intros Hw. rewrite !create_icon_Ok. cbn [returned_image heap].
  split; [apply lookup_new|]. split; [apply lookup_new|].
  rewrite !main_Ok by exact Hw. cbn [succeeded outputs fs].
  split; [reflexivity|]. split; [reflexivity|]. f_equal.
  apply Forall_fmap_ext_1, Forall_forall. intros name Hname.
  destruct (exported_lookup host (badge selected_font) (fs s1) name Hname)
    as (f1 & Hf1 & ->).
  symmetry. apply write_files_lookup; [apply exported_NoDup | exact Hf1].
Qed.

Lemma runs_are_deterministic_witness :
  let P := DisplayList.pillow true in
  let s1 := DisplayList.init P in
  let s2 := final_state (main DisplayList.mac (DisplayList.drawn true)) in
  returned_image (create_icon s1) = Some (badge selected_font)
  /\ returned_image (create_icon s2) = Some (badge selected_font)
  /\ succeeded (main DisplayList.mac s1) = true
  /\ succeeded (main DisplayList.mac s2) = true
  /\ outputs DisplayList.mac (main DisplayList.mac s1)
     = outputs DisplayList.mac (main DisplayList.mac s2).
Proof.
  intros P s1 s2.
  apply (runs_are_deterministic (pil := P) DisplayList.mac s1 s2). reflexivity.
Defined.

(** C8: the export does not modify the base raster.  Whether it completes
    or stops with an exception, it only adds objects to the heap (the
    resized copies), and the object the base reference points to is the
    same image afterwards. *)
Theorem export_leaves_base_unchanged {pil : Pillow} (host : Host)
    (base : loc) (im : Image Raster) (s : State) :
  heap s !! base = Some im ->
  heap s `prefix_of` heap (final_state (save_icon_sizes host base s))
  /\ heap (final_state (save_icon_sizes host base s)) !! base = Some im.
Proof.
  intros Hbase.
  pose proof (allocates_only_save_icon_sizes host base s) as Hprefix.
  split; [exact Hprefix|].
  exact (prefix_lookup_Some _ _ _ _ Hbase Hprefix).
Qed.

Lemma export_leaves_base_unchanged_witness :
  let P := DisplayList.pillow true in
  let s := DisplayList.drawn true in
  heap s `prefix_of` heap (final_state (save_icon_sizes DisplayList.mac 0%nat s))
  /\ heap (final_state (save_icon_sizes DisplayList.mac 0%nat s)) !! 0%nat
     = Some (badge (pil := P) (DisplayList.TrueType "arial.ttf" 409)).
Proof.
  intros P s.
  apply (export_leaves_base_unchanged (pil := P) DisplayList.mac 0%nat
           (badge (pil := P) (DisplayList.TrueType "arial.ttf" 409)) s).
  reflexivity.
Defined.

(** C10: running the export a second time, right after the first, leaves
    the file system exactly as the first run left it, and succeeds
    exactly when the first run did. *)
Theorem export_twice_same_files {pil : Pillow} (host : Host) (base : loc) (s : State) :
  let once := save_icon_sizes host base s in
  let twice := save_icon_sizes host base (final_state once) in
  fs (final_state twice) = fs (final_state once)
  /\ succeeded twice = succeeded once.
Proof.
  cbv zeta.
  destruct (heap s !! base) as [im|] eqn:Hbase.
  - destruct (save_icon_sizes_general host base im s Hbase) as [new ->].
    rewrite final_state_finish.
    destruct (save_icon_sizes_general host base im
                (mkState (heap s ++ new)
                   (write_files (build_dir host)
                      (write_while host (exported_files im) (fs s)).1 (fs s))
                   (stdout s ++ map created_line
                                  (write_while host (exported_files im) (fs s)).1)))
      as [new' ->]; [cbn [heap]; apply lookup_app_l_Some; exact Hbase|].
    cbn [fs]. rewrite write_while_twice by apply exported_NoDup.
    rewrite final_state_finish, !succeeded_finish. cbn [fs].
    split; [|reflexivity].
    apply write_files_twice, write_while_NoDup, exported_NoDup.
  - rewrite (save_icon_sizes_dangling host base s Hbase). cbn [final_state].
    rewrite (save_icon_sizes_dangling host base s Hbase). split; reflexivity.
Qed.

(* ===================================================================== *)
(** * Geometry of the badge *)
(* ===================================================================== *)

(** C6: both circles are drawn around the centre of the canvas; in whole
    pixels, the outer radius is 45 percent of the canvas size (460 of
    1024, the product rounded down), which leaves the box of the circle a
    margin of 5 percent (52 pixels from the left and top edges), and the
    inner radius is 80 percent of the outer one (368). *)
Theorem badge_circle_proportions {pil : Pillow} (s : State) :
  exists center radius inner_radius,
    returned_image (create_icon s)
    = Some (mkImage RGBA (1024, 1024)
              (raster_text
                 (mkImage RGBA (1024, 1024)
                    (raster_ellipse
                       (mkImage RGBA (1024, 1024)
                          (raster_ellipse canvas (circle_box center radius)
                                          (41, 128, 185, 255)))
                       (circle_box center inner_radius)
                       (52, 152, 219, 255)))
                 (glyph_anchor selected_font) "C" (255, 255, 255, 255) selected_font))
    /\ 2 * center = 1024
    /\ 100 * radius <= 45 * 1024 < 100 * (radius + 1)
    /\ box_margin (circle_box center radius) = 52
    /\ 100 * inner_radius = 80 * radius
    /\ box_centre2 (circle_box center inner_radius) = box_centre2 (circle_box center radius).
Proof.
  exists 512, 460, 368.
  rewrite create_icon_Ok. cbn [returned_image heap].
  split; [apply lookup_new|]. repeat split; vm_compute; congruence.
Qed.

Lemma textbbox_at_anchor {pil : Pillow} (draw : ImageDraw) (font : Font) (s : State) :
  textbbox draw (glyph_anchor font) "C" font s = Ok (drawn_glyph_box font) s.
Proof.
  unfold textbbox, drawn_glyph_box.
  destruct (glyph_anchor font) as [x y].
  destruct (font_getbbox font "C") as [[[b0 b1] b2] b3]. reflexivity.
Qed.

(** The anchor is the canvas centre minus half the width and height of the
    font box, so the drawn box is centred on the canvas centre displaced
    by the origin of the font box (up to the half pixel the floor division
    drops). *)
Lemma drawn_glyph_box_centre {pil : Pillow} (font : Font) (b0 b1 b2 b3 : Z) :
  font_getbbox font "C" = (b0, b1, b2, b3) ->
  glyph_anchor font = (512 - (b2 - b0) `div` 2, 512 - (b3 - b1) `div` 2)
  /\ box_centre2 (drawn_glyph_box font)
     = (1024 + 2 * b0 + (b2 - b0) `mod` 2, 1024 + 2 * b1 + (b3 - b1) `mod` 2).
Proof.
  intros Hbox. unfold drawn_glyph_box, glyph_anchor. rewrite Hbox.
  split; [reflexivity|]. cbn [box_centre2]. f_equal; Z.div_mod_to_equations; lia.
Qed.

(** A font box that starts at the drawing origin is centred, within one
    pixel. *)
Lemma drawn_glyph_box_centred_at_origin {pil : Pillow} (font : Font) (b2 b3 : Z) :
  font_getbbox font "C" = (0, 0, b2, b3) ->
  exists dx dy,
    box_centre2 (drawn_glyph_box font) = (1024 + dx, 1024 + dy)
    /\ 0 <= dx <= 1 /\ 0 <= dy <= 1.
Proof.
  intros Hbox. destruct (drawn_glyph_box_centre font 0 0 b2 b3 Hbox) as [_ ->].
  exists ((b2 - 0) `mod` 2), ((b3 - 0) `mod` 2).
  split; [f_equal; lia|]. split; Z.div_mod_to_equations; lia.
Qed.

(** A font box that starts below the drawing origin is drawn below the
    centre, whatever its size. *)
Lemma drawn_glyph_box_off_centre {pil : Pillow} (font : Font) (b0 b1 b2 b3 : Z) :
  font_getbbox font "C" = (b0, b1, b2, b3) ->
  0 < b1 ->
  snd (box_centre2 (drawn_glyph_box font)) >= 2 * 512 + 2.
Proof.
  intros Hbox Hpos. destruct (drawn_glyph_box_centre font b0 b1 b2 b3 Hbox) as [_ ->].
  cbn [snd]. Z.div_mod_to_equations. lia.
Qed.

(** C7 fails on the script when the font box does not start at the drawing
    origin, as the box of a TrueType glyph does.  On the reference
    implementation with Arial installed the box of "C" is
    (0, 85, 266, 384); the script anchors the text at (379, 363), canvas
    centre minus half the width and height of the box, and the drawn glyph
    box (379, 448, 645, 747) has its centre 85.5 pixels below the canvas
    centre (512, 512). *)
Theorem glyph_box_is_off_centre :
  let P := DisplayList.pillow true in
  let font := DisplayList.TrueType "arial.ttf" 409 in
  returned_image (create_icon (DisplayList.init P)) = Some (badge (pil := P) font)
  /\ font_getbbox (Pillow := P) font "C" = (0, 85, 266, 384)
  /\ glyph_anchor (pil := P) font = (379, 363)
  /\ textbbox (pil := P) {| draw_image := 0%nat |} (379, 363) "C" font
              (DisplayList.drawn true)
     = Ok (379, 448, 645, 747) (DisplayList.drawn true)
  /\ box_centre2 (379, 448, 645, 747) = (2 * 512, 2 * 512 + 171)
  /\ box_centre2 (drawn_glyph_box (pil := P) font) <> (2 * 512, 2 * 512).
Proof.
  cbv zeta. repeat split; try reflexivity.
  vm_compute. discriminate.
Qed.


(* ===================================================================== *)
(** * The file names, for every size *)
(* ===================================================================== *)

Module NameFacts.
Import Py PyFacts os_path.

Lemma rfind_cons_none (a c : ascii) (s : string) :
  a <> c -> rfind s c = -1 -> rfind (String a s) c = -1.
Proof.
  intros Hac Hs. simpl. rewrite Hs. change (0 <=? -1) with false. cbv iota.
  destruct (Ascii.eqb_spec a c); [contradiction | reflexivity].
Qed.

Lemma rfind_none_cons (a c : ascii) (s : string) :
  rfind (String a s) c = -1 -> a <> c /\ rfind s c = -1.
Proof.
  simpl. pose proof (rfind_lower_bound s c) as Hlow.
  destruct (0 <=? rfind s c) eqn:E.
  - apply Z.leb_le in E. lia.
  - apply Z.leb_gt in E. destruct (Ascii.eqb_spec a c); [discriminate|].
    intros _. split; [assumption | lia].
Qed.

Lemma rfind_app_none (a b : string) (c : ascii) :
  rfind a c = -1 -> rfind b c = -1 -> rfind (a +:+ b) c = -1.
Proof. intros Ha Hb. rewrite rfind_app, Hb. exact Ha. Qed.

(** Decimal digits only: a character that is no digit does not occur in
    what the printer of stdpp produces. *)
Lemma pretty_N_go_none (c : ascii) (x : N) (s : string) :
  (forall d, pretty_N_char d <> c) ->
  rfind s c = -1 -> rfind (pretty_N_go x s) c = -1.
Proof.
  intros Hdigit. revert s.
  induction (N.lt_wf_0 x) as [x _ IH]; intros s Hs.
  assert (x = 0 \/ 0 < x)%N as [-> | Hpos] by lia.
  - rewrite pretty_N_go_0. exact Hs.
  - rewrite pretty_N_go_step by exact Hpos.
    apply IH; [apply N.div_lt; lia|].
    apply rfind_cons_none; [apply Hdigit | exact Hs].
Qed.

Lemma str_of_int_none (c : ascii) (n : Z) :
  (forall d, pretty_N_char d <> c) -> c <> "-"%char ->
  rfind (str_of_int n) c = -1.
Proof.
  intros Hdigit Hdash.
  assert (Hpos : forall p : positive, rfind (pretty p) c = -1).
  { intros p. unfold pretty, pretty_positive, pretty, pretty_N.
    destruct (decide (N.pos p = 0%N)); [discriminate|].
    apply pretty_N_go_none; [exact Hdigit | reflexivity]. }
  unfold str_of_int, pretty, pretty_Z. destruct n as [|p|p].
  - apply rfind_cons_none; [apply (Hdigit 0%N) | reflexivity].
  - apply Hpos.
  - change ("-" +:+ pretty p) with (String "-"%char (pretty p)).
    apply rfind_cons_none; [congruence | apply Hpos].
Qed.

Lemma not_a_digit_sep : forall d, pretty_N_char d <> sep.
Proof. intros d. unfold pretty_N_char. repeat case_match; discriminate. Qed.

Lemma not_a_digit_extsep : forall d, pretty_N_char d <> extsep.
Proof. intros d. unfold pretty_N_char. repeat case_match; discriminate. Qed.

Lemma not_a_digit_x : forall d, pretty_N_char d <> "x"%char.
Proof. intros d. unfold pretty_N_char. repeat case_match; discriminate. Qed.

(** Two strings that agree up to and including the first occurrence of a
    character agree before it. *)
Lemma split_at_first (c : ascii) (u v r r' : string) :
  rfind u c = -1 -> rfind v c = -1 ->
  u +:+ String c r = v +:+ String c r' -> u = v /\ r = r'.
Proof.
  revert v. induction u as [|a u IH]; intros [|b v] Hu Hv E.
  - rewrite !app_nil_l in E. injection E as ->. split; reflexivity.
  - rewrite app_nil_l, app_cons in E. injection E as <- _.
    apply rfind_none_cons in Hv as [Hv _]. contradiction.
  - rewrite app_nil_l, app_cons in E. injection E as -> _.
    apply rfind_none_cons in Hu as [Hu _]. contradiction.
  - rewrite !app_cons in E. injection E as -> E.
    apply rfind_none_cons in Hu as [_ Hu]. apply rfind_none_cons in Hv as [_ Hv].
    destruct (IH v Hu Hv E) as [-> ->]. split; reflexivity.
Qed.

End NameFacts.

Section SizedNames.
Import Py PyFacts os_path NameFacts.

(** The name of a size, split at its extension. *)
Lemma icon_filename_stem (n : Z) :
  icon_filename n
  = String "i"%char ("con_" +:+ str_of_int n +:+ "x" +:+ str_of_int n) +:+ ".png".
Proof.
  unfold icon_filename. generalize (str_of_int n). intros d.
  change (String "i"%char ("con_" +:+ (d +:+ ("x" +:+ (d +:+ ".png"))))
          = String "i"%char (("con_" +:+ (d +:+ ("x" +:+ d))) +:+ ".png")).
  f_equal. rewrite !app_assoc. reflexivity.
Qed.

Lemma icon_filename_plain (n : Z) : plain_name (icon_filename n).
Proof.
  unfold plain_name, icon_filename.
  pose proof (str_of_int_none sep n not_a_digit_sep ltac:(discriminate)) as Hn.
  repeat (apply rfind_app_none; [first [exact Hn | reflexivity]|]).
  reflexivity.
Qed.

Lemma icon_filename_dot (n : Z) :
  rfind (icon_filename n) extsep
  = len (String "i"%char ("con_" +:+ str_of_int n +:+ "x" +:+ str_of_int n)) + 0.
Proof. rewrite icon_filename_stem, rfind_app. reflexivity. Qed.

(** Whatever the size, its name is a plain file name with the extension
    .png. *)
Lemma icon_filename_png (n : Z) : png_name (icon_filename n).
Proof.
  split; [apply icon_filename_plain|].
  pose proof (icon_filename_dot n) as Hdot. split.
  - rewrite Hdot. unfold len. lia.
  - rewrite PathFacts.splitext_plain; [|apply icon_filename_plain | rewrite Hdot; unfold len; lia].
    rewrite Hdot, icon_filename_stem.
    rewrite slice_to_app, slice_from_app, slice_to_0, slice_from_0, app_nil_r by lia.
    reflexivity.
Qed.

Lemma icon_filename_inj (a b : Z) : icon_filename a = icon_filename b -> a = b.
Proof.
  unfold icon_filename. intros E. apply String.app_inj in E.
  change ("x" +:+ ?t) with (String "x"%char t) in E.
  apply split_at_first in E as [E _].
  - apply (inj pretty). exact E.
  - apply str_of_int_none; [exact not_a_digit_x | discriminate].
  - apply str_of_int_none; [exact not_a_digit_x | discriminate].
Qed.

End SizedNames.

(* ===================================================================== *)
(** * Further properties of the script *)
(* ===================================================================== *)



Lemma created_line_inj (n1 n2 : string) :
  "Created " +:+ n1 = "Created " +:+ n2 -> n1 = n2.
Proof. apply String.app_inj. Qed.

Lemma created_line_in_output {pil : Pillow} (name : string)
    (written : list (string * File Raster)) :
  "Created " +:+ name
    ∈ "Creating CoreLink macOS icon..." :: map created_line written ++ closing_lines ->
  name ∈ map fst written.
Proof.
  intros Hin. apply elem_of_cons in Hin as [E | Hin].
  { change ("Created " +:+ name) with
      (String "C" (String "r" (String "e" (String "a" (String "t"
         (String "e" (String "d" (String " " name)))))))) in E.
    discriminate E. }
  apply elem_of_app in Hin as [Hin | Hin].
  - apply list_elem_of_fmap in Hin as (nf & E & Hnf).
    apply created_line_inj in E as ->.
    apply (list_elem_of_fmap_2 fst _ _ Hnf).
  - change ("Created " +:+ name) with
      (String "C" (String "r" (String "e" (String "a" (String "t"
         (String "e" (String "d" (String " " name)))))))) in Hin.
    unfold closing_lines in Hin.
    repeat (apply elem_of_cons in Hin as [E | Hin]; [discriminate E|]).
    apply elem_of_nil in Hin. contradiction.
Qed.

(** X2: whatever the outcome of the run, it announces only files it has
    written: for every line "Created <name>" it added to the output, the
    file <name> exists in the script directory afterwards. *)
Theorem created_lines_name_written_files {pil : Pillow} (host : Host) (s : State) :
  exists lines,
    stdout (final_state (main host s)) = stdout s ++ lines
    /\ forall name,
         "Created " +:+ name ∈ lines ->
         is_Some (fs (final_state (main host s)) !! os_path.join (build_dir host) name).
Proof.
  destruct (main_general host s) as [new ->].
  destruct (write_while host (exported_files (badge selected_font)) (fs s))
    as [written [path|]]; cbn [fst snd final_state stdout fs].
  - eexists. split; [reflexivity|]. intros name Hin.
    apply write_files_is_Some. apply created_line_in_output.
    apply elem_of_cons in Hin as [-> | Hin]; [apply elem_of_cons; left; reflexivity|].
    apply elem_of_cons. right. apply elem_of_app. left. exact Hin.
  - eexists. split; [reflexivity|]. intros name Hin.
    apply write_files_is_Some. apply created_line_in_output. exact Hin.
Qed.

(** X3: the naming scheme keeps sizes apart: two different sizes, whatever
    they are, get different paths in the script directory, so no resized
    raster can overwrite another one. *)
Theorem distinct_sizes_distinct_paths (host : Host) (a b : Z) :
  a <> b ->
  os_path.join (build_dir host) (icon_filename a)
  <> os_path.join (build_dir host) (icon_filename b).
Proof.
  intros Hab E. apply Hab, icon_filename_inj.
  apply (PathFacts.join_inj (build_dir host)); [apply icon_filename_plain.. | exact E].
Qed.

Lemma distinct_sizes_distinct_paths_witness :
  os_path.join (build_dir DisplayList.mac) (icon_filename 16)
  <> os_path.join (build_dir DisplayList.mac) (icon_filename 160).
Proof. apply (distinct_sizes_distinct_paths DisplayList.mac 16 160). lia. Defined.

(** X4: for every size, the path the loop saves under lies in the
    directory of the script, its last component is the name
    icon_{size}x{size}.png, and its extension selects the PNG encoder. *)
Theorem sized_path_is_png_in_build_dir (host : Host) (size : Z) :
  let path := os_path.join (build_dir host) (icon_filename size) in
  os_path.dirname path = os_path.dirname (script_path host)
  /\ os_path.basename path = icon_filename size
  /\ EXTENSION (Py.lower (snd (os_path.splitext path))) = Some PNG.
Proof.
  cbv zeta. destruct (icon_filename_png size) as (Hplain & Hdot & Hext).
  split; [|split].
  - apply PathFacts.dirname_join; [apply PathFacts.dirname_normal | exact Hplain].
  - apply PathFacts.basename_join. exact Hplain.
  - rewrite PathFacts.splitext_join by assumption. rewrite Hext. reflexivity.
Qed.

(** X6: composing the badge has no effect beyond the new image: it never
    raises, touches neither the file system nor the output, leaves every
    image that exists unchanged, and returns a reference that was not in
    use.  Two calls in a row return two different objects that hold the
    same raster. *)
Theorem create_icon_only_allocates {pil : Pillow} (s : State) :
  exists img s1 img' s2,
    create_icon s = Ok img s1
    /\ heap s !! img = None
    /\ heap s1 = heap s ++ [badge selected_font]
    /\ fs s1 = fs s /\ stdout s1 = stdout s
    /\ create_icon s1 = Ok img' s2
    /\ img' <> img
    /\ heap s2 !! img = Some (badge selected_font)
    /\ heap s2 !! img' = Some (badge selected_font).
Proof.
  eexists _, _, _, _. split; [apply create_icon_Ok|].
  split; [apply lookup_ge_None_2; lia|].
  cbn [heap fs stdout]. do 3 (split; [reflexivity|]).
  split; [apply create_icon_Ok|]. cbn [heap].
  split; [rewrite length_app; cbn; lia|].
  split; [apply lookup_app_l_Some, lookup_new | apply lookup_new].
Qed.

(** X7: where the glyph ends up, for whatever font was selected.  The
    script anchors the text at the canvas centre minus half the width and
    half the height of the measured box; the box of the drawn glyph has
    the measured width and height, and its centre is the canvas centre
    displaced by the origin of the measured box (plus the half pixel that
    the floor division drops for an odd width or height). *)
Theorem glyph_box_displacement {pil : Pillow} (draw : ImageDraw) (s : State) :
  exists b0 b1 b2 b3 x y,
    font_getbbox selected_font "C" = (b0, b1, b2, b3)
    /\ returned_image (create_icon s)
       = Some (mkImage RGBA (1024, 1024)
                 (raster_text inner_circle (x, y) "C" (255, 255, 255, 255) selected_font))
    /\ x = 512 - (b2 - b0) `div` 2
    /\ y = 512 - (b3 - b1) `div` 2
    /\ textbbox draw (x, y) "C" selected_font s = Ok (b0 + x, b1 + y, b2 + x, b3 + y) s
    /\ (b0 + x) + (b2 + x) = 2 * 512 + 2 * b0 + (b2 - b0) `mod` 2
    /\ (b1 + y) + (b3 + y) = 2 * 512 + 2 * b1 + (b3 - b1) `mod` 2.
Proof.
  destruct (font_getbbox selected_font "C") as [[[b0 b1] b2] b3] eqn:Hbox.
  exists b0, b1, b2, b3, (512 - (b2 - b0) `div` 2), (512 - (b3 - b1) `div` 2).
  split; [reflexivity|]. split.
  { rewrite create_icon_Ok. cbn [returned_image heap]. rewrite lookup_new.
    unfold badge, glyph_anchor. rewrite Hbox. reflexivity. }
  do 2 (split; [reflexivity|]). split.
  { unfold textbbox. rewrite Hbox. reflexivity. }
  split; Z.div_mod_to_equations; lia.
Qed.

(** X8: when the measured box of the glyph starts at the drawing origin,
    as the box of the built-in bitmap font does, the drawn glyph is centred
    on the canvas within one pixel in each direction. *)
Theorem glyph_centred_for_box_at_origin {pil : Pillow} (draw : ImageDraw)
    (w h : Z) (s : State) :
  font_getbbox selected_font "C" = (0, 0, w, h) ->
  exists x y x0 y0 x1 y1,
    returned_image (create_icon s)
    = Some (mkImage RGBA (1024, 1024)
              (raster_text inner_circle (x, y) "C" (255, 255, 255, 255) selected_font))
    /\ textbbox draw (x, y) "C" selected_font s = Ok (x0, y0, x1, y1) s
    /\ 0 <= (x0 + x1) - 2 * 512 <= 1
    /\ 0 <= (y0 + y1) - 2 * 512 <= 1.
Proof.
  intros Hbox.
  exists (512 - (w - 0) `div` 2), (512 - (h - 0) `div` 2).
  eexists _, _, _, _. split.
  { rewrite create_icon_Ok. cbn [returned_image heap]. rewrite lookup_new.
    unfold badge, glyph_anchor. rewrite Hbox. reflexivity. }
  split; [unfold textbbox; rewrite Hbox; reflexivity|].
  split; Z.div_mod_to_equations; lia.
Qed.

Lemma glyph_centred_for_box_at_origin_witness :
  let P := DisplayList.pillow false in
  let s := DisplayList.init P in
  exists x y x0 y0 x1 y1,
    returned_image (create_icon s)
    = Some (mkImage RGBA (1024, 1024)
              (raster_text inner_circle (x, y) "C" (255, 255, 255, 255) selected_font))
    /\ textbbox {| draw_image := 0%nat |} (x, y) "C" selected_font s
       = Ok (x0, y0, x1, y1) s
    /\ 0 <= (x0 + x1) - 2 * 512 <= 1
    /\ 0 <= (y0 + y1) - 2 * 512 <= 1.
Proof.
  intros P s.
  apply (glyph_centred_for_box_at_origin (pil := P) {| draw_image := 0%nat |} 6 11 s).
  reflexivity.
Defined.

(** X9: when arial.ttf loads, at the size 409 = int(1024 * 0.4) the script
    asks for, the handler of the try statement does not run: the glyph is
    measured and drawn in the loaded font, and the composition returns the
    badge in that font. *)
Theorem loaded_font_is_used {pil : Pillow} (font : Font) (s : State) :
  font_truetype "arial.ttf" 409 = inr font ->
  selected_font = font
  /\ create_icon s
     = Ok (length (heap s)) (mkState (heap s ++ [badge font]) (fs s) (stdout s)).
Proof.
  intros Hfont.
  assert (Hsel : selected_font = font) by (unfold selected_font; rewrite Hfont; reflexivity).
  split; [exact Hsel|]. rewrite create_icon_Ok, Hsel. reflexivity.
Qed.

Lemma loaded_font_is_used_witness :
  let P := DisplayList.pillow true in
  let s := DisplayList.init P in
  let font := DisplayList.TrueType "arial.ttf" 409 in
  selected_font (pil := P) = font
  /\ create_icon s
     = Ok (length (heap s))
          (mkState (heap s ++ [badge (pil := P) font]) (fs s) (stdout s)).
Proof.
  intros P s font.
  apply (loaded_font_is_used (pil := P) font s). reflexivity.
Defined.

(** X10: what the export puts into the files, for any base image.  In a
    writable directory every sized file holds a raster resampled from the
    base image itself with the Lanczos filter (never from a smaller copy
    made before), in the mode of the base image, and icon.png holds the
    base image as it is. *)
Theorem export_file_contents {pil : Pillow} (host : Host) (base : loc)
    (im : Image Raster) (s : State) :
  dir_writable host (build_dir host) = true ->
  heap s !! base = Some im ->
  exists s',
    save_icon_sizes host base s = Ok tt s'
    /\ (forall S, S ∈ sizes ->
          fs s' !! os_path.join (build_dir host) (icon_filename S)
          = Some (mkFile PNG
                    (mkImage (im_mode im) (S, S) (raster_resize im (S, S) LANCZOS))))
    /\ fs s' !! os_path.join (build_dir host) "icon.png" = Some (mkFile PNG im).
Proof.
  intros Hw Hbase. eexists. split; [apply save_icon_sizes_Ok; eassumption|].
  cbn [fs]. split.
  - intros S HS. apply (write_files_lookup _ _ _ (icon_filename S));
      [apply exported_NoDup|].
    unfold exported_files. apply elem_of_app. left.
    apply (list_elem_of_fmap_2 (sized_file im) _ _ HS).
  - apply write_files_lookup; [apply exported_NoDup|].
    unfold exported_files. apply elem_of_app. right.
    apply list_elem_of_singleton. reflexivity.
Qed.

Lemma export_file_contents_witness :
  let P := DisplayList.pillow true in
  let s := DisplayList.drawn true in
  let im := badge (pil := P) (DisplayList.TrueType "arial.ttf" 409) in
  exists s',
    save_icon_sizes DisplayList.mac 0%nat s = Ok tt s'
    /\ (forall S, S ∈ sizes ->
          fs s' !! os_path.join (build_dir DisplayList.mac) (icon_filename S)
          = Some (mkFile PNG
                    (mkImage (im_mode im) (S, S) (raster_resize im (S, S) LANCZOS))))
    /\ fs s' !! os_path.join (build_dir DisplayList.mac) "icon.png" = Some (mkFile PNG im).
Proof.
  intros P s im.
  apply (export_file_contents (pil := P) DisplayList.mac 0%nat im s); reflexivity.
Defined.

(** X11: the run needs no permission on the directory when the eight
    files are there already and may be written: it completes, rewrites
    each of them with the file of the export, and adds no entry to the
    file system. *)
Theorem run_over_existing_files {pil : Pillow} (host : Host) (s : State) :
  (forall name, name ∈ icon_names ->
     file_writable host (os_path.join (build_dir host) name) = true
     /\ is_Some (fs s !! os_path.join (build_dir host) name)) ->
  exists s',
    main host s = Ok tt s'
    /\ (forall name f, (name, f) ∈ exported_files (badge selected_font) ->
          fs s' !! os_path.join (build_dir host) name = Some f)
    /\ dom (fs s') = dom (fs s).
Proof.
  intros Hfiles. destruct (main_general host s) as [new Hmain].
  rewrite write_while_existing in Hmain.
  - cbn [fst snd] in Hmain. eexists. split; [exact Hmain|]. cbn [fs]. split.
    + intros name f Hin. apply write_files_lookup; [apply exported_NoDup | exact Hin].
    + rewrite dom_write_files, exported_names.
      apply (anti_symm (⊆)); [|apply union_subseteq_r].
      apply union_least; [|reflexivity].
      intros path Hpath. apply elem_of_list_to_set in Hpath.
      apply list_elem_of_fmap in Hpath as (name & -> & Hname).
      apply elem_of_dom. apply (Hfiles name Hname).
  - apply Forall_forall. intros [name f] Hin. cbn [fst]. apply Hfiles.
    rewrite <- (exported_names (badge selected_font)).
    apply (list_elem_of_fmap_2 fst _ _ Hin).
Qed.

Lemma run_over_existing_files_witness :
  let P := DisplayList.pillow true in
  let s := final_state (main DisplayList.mac (DisplayList.init P)) in
  exists s',
    main DisplayList.closed_dir_mac s = Ok tt s'
    /\ (forall name f, (name, f) ∈ exported_files (badge selected_font) ->
          fs s' !! os_path.join (build_dir DisplayList.closed_dir_mac) name = Some f)
    /\ dom (fs s') = dom (fs s).
Proof.
  intros P s.
  apply (run_over_existing_files (pil := P) DisplayList.closed_dir_mac s).
  intros name Hname. split; [reflexivity|].
  rewrite icon_names_eq in Hname.
  repeat (apply elem_of_cons in Hname as [-> | Hname];
          [apply (bool_decide_unpack _); vm_compute; exact I|]).
  apply elem_of_nil in Hname. contradiction.
Defined.


(** The run on a machine whose icon_64x64.png may not be written. *)
Example run_on_locked_64_mac :
  let r := main DisplayList.locked_64_mac (DisplayList.init (DisplayList.pillow true)) in
  outputs DisplayList.locked_64_mac r
  = inl (PermissionError "/Users/dev/corelink/build/icon_64x64.png")
  /\ fst <$> map_to_list (fs (final_state r))
     ≡ₚ ["/Users/dev/corelink/build/icon_16x16.png";
         "/Users/dev/corelink/build/icon_32x32.png"]
  /\ stdout (final_state r)
     = ["Creating CoreLink macOS icon..."; "Created icon_16x16.png"; "Created icon_32x32.png"].
Proof.
  vm_compute. split; [reflexivity|]. split; [|reflexivity].
  apply Permutation_swap.
Qed.
